(** * teams_puppet: token capture and token lifecycle

    A shallow embedding of [src/teams_puppet/__init__.py]: the [Puppet]
    class, its freshness check, and [fetch_new_tokens] with its two polling
    scans over the requests captured by the browser.

    The browser, the clock and the JWT library are external.  Their
    observable behaviour is an explicit input of the model:
    - every driver interaction of one [fetch_new_tokens] call has an
      [effect] (it returns, or raises an exception);
    - every poll of a scan observes a clock reading and the captured
      request log, once when it slices the log and once when it takes its
      length;
    - [jwt.decode(..., verify_signature=False)] is a function from token
      strings to an optional claim set ([None] is [jwt.DecodeError]);
    - [datetime.datetime.fromtimestamp] on an integer is a partial function
      from timestamps to naive local dates, as the platform and its time
      zone database compute it, and [datetime.datetime.now()] is a reading
      on the same naive local scale.

    Times are integers, in microseconds (the resolution of
    [datetime.timedelta]); floating point rounding of [time.time()] is not
    modelled. *)

From Stdlib Require Import String Ascii List ZArith Bool Lia Arith.
Import ListNotations.

Local Open Scope string_scope.
Local Open Scope Z_scope.

(** ** Python strings *)

Module Py.

(** [s.startswith(pre)] *)
Definition startswith (s pre : string) : bool := String.prefix pre s.

(** [sub in s]: [sub] occurs in [s] at some position. *)
Fixpoint contains (sub s : string) : bool :=
  match s with
  | EmptyString => String.prefix sub EmptyString
  | String _ rest => String.prefix sub s || contains sub rest
  end.

(** [s.endswith(suf)] *)
Definition endswith (s suf : string) : bool :=
  let n := String.length s in
  let m := String.length suf in
  (m <=? n)%nat && String.eqb (String.substring (n - m) m s) suf.

(** [s.split(" ")]: cut at every single space; never the empty list. *)
Fixpoint split_space (s : string) : list string :=
  match s with
  | EmptyString => [EmptyString]
  | String c rest =>
      if Ascii.eqb c " "%char then EmptyString :: split_space rest
      else match split_space rest with
           | h :: t => String c h :: t
           | [] => [String c EmptyString]
           end
  end.

(** ASCII part of [str.lower]. *)
Definition lower_ascii (c : ascii) : ascii :=
  let n := nat_of_ascii c in
  if ((65 <=? n) && (n <=? 90))%nat then ascii_of_nat (n + 32) else c.

Fixpoint lower (s : string) : string :=
  match s with
  | EmptyString => EmptyString
  | String c rest => String (lower_ascii c) (lower rest)
  end.

(** Truth value of an optional string: [None] and the empty string are false. *)
Definition truthy (o : option string) : bool :=
  match o with
  | None => false
  | Some s => negb (String.eqb s EmptyString)
  end.

End Py.

(** ** Exceptions and results *)

(** The exception classes that matter to the control flow.
    [TimeoutException] and [NoSuchElementException] are subclasses of
    selenium's [WebDriverException]; the constructor [WebDriverException]
    stands for every other instance of that class.  [OtherException] is any
    exception outside the classes named here. *)
Inductive exn : Type :=
| TimeoutException
| NoSuchElementException
| WebDriverException
| DecodeError
| KeyError
| TypeError
| OverflowError
| UnboundLocalError
| OtherException.

Definition exn_eqb (a b : exn) : bool :=
  match a, b with
  | TimeoutException, TimeoutException
  | NoSuchElementException, NoSuchElementException
  | WebDriverException, WebDriverException
  | DecodeError, DecodeError
  | KeyError, KeyError
  | TypeError, TypeError
  | OverflowError, OverflowError
  | UnboundLocalError, UnboundLocalError
  | OtherException, OtherException => true
  | _, _ => false
  end.

(** [isinstance(e, WebDriverException)] *)
Definition is_webdriver_exception (e : exn) : bool :=
  match e with
  | TimeoutException | NoSuchElementException | WebDriverException => true
  | _ => false
  end.

(** What a call does: it returns a value, raises, or the script of the
    environment ends while the call is still looping ([Unfinished]). *)
Inductive outcome (A : Type) : Type :=
| Returns (a : A)
| Raises (e : exn)
| Unfinished.
Arguments Returns {A} a.
Arguments Raises {A} e.
Arguments Unfinished {A}.

(** ** Token payloads *)

(** The claims of the model: a string, an integer, or JSON [null].
    Payloads with other JSON values (fractions, booleans, arrays, objects)
    are outside the model. *)
Inductive value : Type :=
| VStr (s : string)
| VInt (n : Z)
| VNull.

Definition payload : Type := list (string * value).

(** [payload[key]]; [None] is a [KeyError]. *)
Fixpoint payload_get (p : payload) (key : string) : option value :=
  match p with
  | [] => None
  | (k, v) :: rest => if String.eqb k key then Some v else payload_get rest key
  end.

(** [v == s] for a string [s]. *)
Definition value_eq_str (v : value) (s : string) : bool :=
  match v with
  | VStr t => String.eqb t s
  | _ => false
  end.

(** ** Captured requests *)

Record request : Type := {
  url : string;
  headers : list (string * string)
}.

(** [request.headers.get(name)]: the first header of that name, the name
    compared without case. *)
Fixpoint headers_get (hs : list (string * string)) (name : string) : option string :=
  match hs with
  | [] => None
  | (k, v) :: rest =>
      if String.eqb (Py.lower k) (Py.lower name) then Some v
      else headers_get rest name
  end.

(** ** The captured-request log as a scan sees it *)

(** One iteration of a polling loop reads the environment three times:
    the clock in the loop condition, [driver.requests] when it takes the
    slice, and [driver.requests] again when it records the new cursor. *)
Record poll : Type := {
  p_now : Z;
  p_requests : list request;
  p_requests_after : list request
}.

(** A scan reads the clock once before the loop ([start_time]), then
    polls. *)
Record scan_script : Type := {
  start_time : Z;
  polls : list poll
}.

(** 30 seconds *)
Definition scan_deadline : Z := 30 * 1000000.

(** How the body of a [for] loop ends for one element: it falls through or
    executes [continue], executes [break], or raises. *)
Inductive ctl (St : Type) : Type :=
| Continue (s : St)
| Break (s : St)
| Throw (e : exn).
Arguments Continue {St} s.
Arguments Break {St} s.
Arguments Throw {St} e.

(** [for request in new_requests: body].  The second component counts the
    requests the loop visited. *)
Fixpoint for_requests {St : Type} (body : request -> St -> ctl St)
    (new_requests : list request) (s : St) : ctl St * nat :=
  match new_requests with
  | [] => (Continue s, O)
  | r :: rest =>
      match body r s with
      | Continue s' =>
          let '(c, n) := for_requests body rest s' in (c, S n)
      | Break s' => (Break s', 1%nat)
      | Throw e => (Throw e, 1%nat)
      end
  end.

(** The variables of a polling loop. *)
Record scan_state (St : Type) : Type := {
  token : St;
  found : bool;
  last_checked_index : nat
}.
Arguments token {St} s.
Arguments found {St} s.
Arguments last_checked_index {St} s.

(** What one iteration looked at: the slice started at [from_index] and
    the [for] loop visited [visited] requests of it. *)
Record poll_record : Type := {
  from_index : nat;
  visited : nat
}.

Definition with_record {A : Type} (r : poll_record)
    (x : list poll_record * A) : list poll_record * A :=
  (r :: fst x, snd x).

(** [while not found and time.time() - start_time < 30: ...], the loop
    shared by the two scans; [body] is the body of the inner [for].  A
    [break] of the inner loop is always taken together with
    [found = True].  The first component lists the iterations executed. *)
Fixpoint scan_while {St : Type} (body : request -> St -> ctl St) (start : Z)
    (ps : list poll) (st : scan_state St)
    : list poll_record * outcome (scan_state St) :=
  if found st then ([], Returns st)
  else
    match ps with
    | [] => ([], Unfinished)
    | p :: ps' =>
        if p_now p - start <? scan_deadline then
          let new_requests := skipn (last_checked_index st) (p_requests p) in
          let '(c, n) := for_requests body new_requests (token st) in
          let r := {| from_index := last_checked_index st; visited := n |} in
          let next := length (p_requests_after p) in
          match c with
          | Throw e => ([r], Raises e)
          | Break t =>
              with_record r (scan_while body start ps'
                {| token := t; found := true; last_checked_index := next |})
          | Continue t =>
              with_record r (scan_while body start ps'
                {| token := t; found := false; last_checked_index := next |})
          end
        else ([], Returns st)
    end.

(** The state both scans start from. *)
Definition scan_init {St : Type} (t : St) : scan_state St :=
  {| token := t; found := false; last_checked_index := O |}.

(** ** One call of [fetch_new_tokens] *)

(** What a driver interaction does: [None] when it returns, [Some e] when
    it raises [e]. *)
Definition effect : Type := option exn.

(** The environment of one call, one field per interaction, in program
    order.  [ChromeDriverManager().install()] and the path it returns only
    feed the construction of the driver; the string operations on the path
    cannot raise. *)
Record attempt : Type := {
  chromedriver_install : effect;
  chrome : effect;
  get_teams : effect;
  email_input_wait : effect;
  email_input_send_keys : effect;
  next_button_wait : effect;
  next_button_click : effect;
  password_input_wait : effect;
  password_input_send_keys : effect;
  sign_in_button_wait : effect;
  sign_in_button_click : effect;
  stay_signed_in_wait : effect;
  yes_button_wait : effect;
  yes_button_click : effect;
  teams_requests : scan_script;
  profile_button_wait : effect;
  profile_button_click : effect;
  view_button_wait : effect;
  view_button_click : effect;
  loki_requests : scan_script
}.

Module Frame.

(** The local variables of [fetch_new_tokens] that outlive the [try]
    block: the two tokens and whether the name [driver] is bound.
    [quit_calls] counts the calls of [driver.quit()] that were made. *)
Record t : Type := {
  auth_token : option string;
  loki_token : option string;
  driver : bool;
  quit_calls : nat
}.

Definition set_auth_token (v : option string) (l : t) : t :=
  {| auth_token := v; loki_token := loki_token l;
     driver := driver l; quit_calls := quit_calls l |}.

Definition set_loki_token (v : option string) (l : t) : t :=
  {| auth_token := auth_token l; loki_token := v;
     driver := driver l; quit_calls := quit_calls l |}.

Definition bind_driver (l : t) : t :=
  {| auth_token := auth_token l; loki_token := loki_token l;
     driver := true; quit_calls := quit_calls l |}.

Definition count_quit (l : t) : t :=
  {| auth_token := auth_token l; loki_token := loki_token l;
     driver := driver l; quit_calls := S (quit_calls l) |}.

(** [auth_token, loki_token = None, None]; no driver yet. *)
Definition init : t :=
  {| auth_token := None; loki_token := None; driver := false; quit_calls := O |}.

End Frame.

(** Statements of the function body: they read and write the frame and
    return, raise, or do not finish. *)
Definition M (A : Type) : Type := Frame.t -> Frame.t * outcome A.

Definition ret {A : Type} (a : A) : M A := fun l => (l, Returns a).

Definition bind {A B : Type} (m : M A) (k : A -> M B) : M B :=
  fun l =>
    match m l with
    | (l', Returns a) => k a l'
    | (l', Raises e) => (l', Raises e)
    | (l', Unfinished) => (l', Unfinished)
    end.

Notation "m1 ;; m2" := (bind m1 (fun _ => m2))
  (at level 61, right associativity).

(** A driver interaction. *)
Definition step (e : effect) : M unit :=
  fun l =>
    match e with
    | None => (l, Returns tt)
    | Some x => (l, Raises x)
    end.

(** [driver = webdriver.Chrome(...)]: the name is bound only when the
    constructor returns. *)
Definition new_driver (e : effect) : M unit :=
  fun l =>
    match e with
    | None => (Frame.bind_driver l, Returns tt)
    | Some x => (l, Raises x)
    end.

(** [driver.quit()]; an unbound [driver] is an [UnboundLocalError]. *)
Definition driver_quit : M unit :=
  fun l =>
    if Frame.driver l then (Frame.count_quit l, Returns tt)
    else (l, Raises UnboundLocalError).

(** [try: m  except C1: h1  except C2: h2 ...]: the first clause whose
    class contains the exception handles it. *)
Fixpoint handle (clauses : list ((exn -> bool) * M unit)) (e : exn) : M unit :=
  match clauses with
  | [] => fun l => (l, Raises e)
  | (cls, h) :: rest => if cls e then h else handle rest e
  end.

Definition try_except (m : M unit) (clauses : list ((exn -> bool) * M unit))
    : M unit :=
  fun l =>
    match m l with
    | (l', Raises e) => handle clauses e l'
    | r => r
    end.

(** [try: m  finally: f]: [f] runs when [m] returns or raises; an
    exception of [f] replaces the one of [m]. *)
Definition try_finally (m f : M unit) : M unit :=
  fun l =>
    match m l with
    | (l', Unfinished) => (l', Unfinished)
    | (l', r) =>
        match f l' with
        | (l'', Returns _) => (l'', r)
        | (l'', other) => (l'', other)
        end
    end.

Definition is_timeout (e : exn) : bool := exn_eqb e TimeoutException.
Definition is_no_such_element (e : exn) : bool :=
  exn_eqb e NoSuchElementException.

(** [auth_token = None], the body of each [except] clause. *)
Definition clear_auth_token : M unit :=
  fun l => (Frame.set_auth_token None l, Returns tt).

(** ** Dates and durations *)

(** A [datetime.timedelta] in microseconds.  A naive [datetime.datetime]
    is the number of microseconds from 1970-01-01 00:00:00 to it, counted
    on the calendar without regard to any zone, so that the difference of
    two naive dates is their [timedelta]. *)
Definition timedelta : Type := Z.

Definition seconds (n : Z) : timedelta := n * 1000000.
Definition minutes (n : Z) : timedelta := seconds (60 * n).

Definition obind {A B : Type} (o : outcome A) (k : A -> outcome B) : outcome B :=
  match o with
  | Returns a => k a
  | Raises e => Raises e
  | Unfinished => Unfinished
  end.

(** [try: o  except C: h] on results. *)
Definition catch {A : Type} (o : outcome A) (cls : exn -> bool) (h : outcome A)
    : outcome A :=
  match o with
  | Raises e => if cls e then h else Raises e
  | r => r
  end.

Definition is_decode_error (e : exn) : bool := exn_eqb e DecodeError.

(** ** The class *)

Record Puppet : Type := {
  username : string;
  password : string;
  teams_token : option string;
  loki_token : option string
}.

(** [self.teams_token, self.loki_token = tokens] *)
Definition set_tokens (tokens : option string * option string) (self : Puppet)
    : Puppet :=
  {| username := username self; password := password self;
     teams_token := fst tokens; loki_token := snd tokens |}.

(** What a method call leaves behind: the object, what the call returned
    or raised, and how many times it called [fetch_new_tokens]. *)
Record call (A : Type) : Type := {
  self_after : Puppet;
  returned : outcome A;
  fetch_calls : nat
}.
Arguments self_after {A} c.
Arguments returned {A} c.
Arguments fetch_calls {A} c.

(** ** Callers running concurrently *)

(** The scheduler thread runs [check_tokens]; any other thread may run
    [get_token].  The class has no lock, so the methods interleave at their
    accesses to the shared object.  A thread is at one of these points:
    before the [if], before the call of [fetch_new_tokens], before the
    assignment of its result, before the [return], or done. *)
Inductive entry : Type :=
| GetToken (service : string)
| CheckTokens.

Inductive pc : Type :=
| AtCheck
| AtFetch
| AtStore (tokens : option string * option string)
| AtReturn
| Finished (r : outcome (option string)).

(** [t_now] and [t_attempt] are what the thread's reading of
    [datetime.now()] and its browser session will be.  [t_needed] keeps the
    value its [if] condition had, [t_runs] counts its calls of
    [fetch_new_tokens]. *)
Record thread : Type := {
  t_entry : entry;
  t_now : Z;
  t_attempt : attempt;
  t_pc : pc;
  t_needed : option bool;
  t_runs : nat
}.

Definition caller (e : entry) (now : Z) (w : attempt) : thread :=
  {| t_entry := e; t_now := now; t_attempt := w; t_pc := AtCheck;
     t_needed := None; t_runs := O |}.

Definition goto (p : pc) (t : thread) : thread :=
  {| t_entry := t_entry t; t_now := t_now t; t_attempt := t_attempt t;
     t_pc := p; t_needed := t_needed t; t_runs := t_runs t |}.

Definition decided (b : bool) (t : thread) : thread :=
  {| t_entry := t_entry t; t_now := t_now t; t_attempt := t_attempt t;
     t_pc := if b then AtFetch else AtReturn;
     t_needed := Some b; t_runs := t_runs t |}.

Definition fetched (p : pc) (t : thread) : thread :=
  {| t_entry := t_entry t; t_now := t_now t; t_attempt := t_attempt t;
     t_pc := p; t_needed := t_needed t; t_runs := S (t_runs t) |}.

Record system : Type := {
  shared : Puppet;
  threads : list thread
}.

(** Replace the element at position [i]; out of range, nothing changes. *)
Fixpoint update_nth {A : Type} (i : nat) (x : A) (l : list A) : list A :=
  match l, i with
  | [], _ => []
  | _ :: rest, O => x :: rest
  | y :: rest, S j => y :: update_nth j x rest
  end.

(** The calls of [fetch_new_tokens] made so far, over all threads. *)
Definition login_runs (s : system) : nat :=
  fold_right (fun t n => (t_runs t + n)%nat) O (threads s).

Definition is_finished (t : thread) : bool :=
  match t_pc t with
  | Finished _ => true
  | _ => false
  end.

Definition teams_audience : string := "https://api.spaces.skype.com".
Definition loki_suffix : string := "loki.delve.office.com".

Section Decode.

(** [jwt.decode(token, options={"verify_signature": False})]: the claims
    of a well-formed token, none of them validated; [None] is
    [jwt.DecodeError]. *)
Variable jwt_decode : string -> option payload.

(** Body of the [for] loop of the first scan; the state is [auth_token].
    [auth_token] is assigned before the token is decoded. *)
Definition teams_body (r : request) (auth_token : option string)
    : ctl (option string) :=
  match headers_get (headers r) "Authorization" with
  | None => Continue auth_token
  | Some auth_header =>
      if String.eqb auth_header EmptyString then Continue auth_token
      else if negb (Py.contains "Bearer" auth_header) then Continue auth_token
      else if negb (length (Py.split_space auth_header) =? 2)%nat
           then Continue auth_token
      else
        let t := nth 1 (Py.split_space auth_header) EmptyString in
        match jwt_decode t with
        | None => Continue (Some t)
        | Some p =>
            match payload_get p "aud" with
            | None => Throw KeyError
            | Some aud =>
                if value_eq_str aud teams_audience then Break (Some t)
                else Continue (Some t)
            end
        end
  end.

(** Body of the [for] loop of the second scan; the state is
    [loki_token]. *)
Definition loki_body (r : request) (loki_token : option string)
    : ctl (option string) :=
  if negb (Py.endswith (url r) loki_suffix) then Continue loki_token
  else
    match headers_get (headers r) "Authorization" with
    | None => Continue loki_token
    | Some auth_header =>
        if String.eqb auth_header EmptyString then Continue loki_token
        else if negb (Py.contains "Bearer" auth_header) then Continue loki_token
        else if negb (length (Py.split_space auth_header) =? 2)%nat
             then Continue loki_token
        else Break (Some (nth 1 (Py.split_space auth_header) EmptyString))
    end.

(** The two scans, from the assignment of the [found] flag to the end of
    the [while] loop. *)
Definition teams_scan (s : scan_script) (auth_token : option string)
    : list poll_record * outcome (scan_state (option string)) :=
  scan_while teams_body (start_time s) (polls s) (scan_init auth_token).

Definition loki_scan (s : scan_script) (loki_token : option string)
    : list poll_record * outcome (scan_state (option string)) :=
  scan_while loki_body (start_time s) (polls s) (scan_init loki_token).

(** ** The body of [fetch_new_tokens] *)

(** The first scan, and [if not auth_token: auth_token = None] after
    it.  A [KeyError] of the scan is caught by no clause and ends the call,
    so what [auth_token] held when it was raised is never read; the frame
    is left as it was. *)
Definition capture_teams_token (s : scan_script) : M unit :=
  fun l =>
    match snd (teams_scan s (Frame.auth_token l)) with
    | Returns st =>
        let l' := Frame.set_auth_token (token st) l in
        if negb (Py.truthy (Frame.auth_token l'))
        then (Frame.set_auth_token None l', Returns tt)
        else (l', Returns tt)
    | Raises e => (l, Raises e)
    | Unfinished => (l, Unfinished)
    end.

(** The second scan. *)
Definition capture_loki_token (s : scan_script) : M unit :=
  fun l =>
    match snd (loki_scan s (Frame.loki_token l)) with
    | Returns st => (Frame.set_loki_token (token st) l, Returns tt)
    | Raises e => (l, Raises e)
    | Unfinished => (l, Unfinished)
    end.

(** The body of the outer [try]. *)
Definition login (w : attempt) : M unit :=
  step (chromedriver_install w) ;;
  new_driver (chrome w) ;;
  step (get_teams w) ;;
  step (email_input_wait w) ;;
  step (email_input_send_keys w) ;;
  step (next_button_wait w) ;;
  step (next_button_click w) ;;
  step (password_input_wait w) ;;
  step (password_input_send_keys w) ;;
  step (sign_in_button_wait w) ;;
  step (sign_in_button_click w) ;;
  try_except
    (step (stay_signed_in_wait w) ;;
     step (yes_button_wait w) ;;
     step (yes_button_click w))
    [(is_timeout, ret tt)] ;;
  capture_teams_token (teams_requests w) ;;
  step (profile_button_wait w) ;;
  step (profile_button_click w) ;;
  step (view_button_wait w) ;;
  step (view_button_click w) ;;
  capture_loki_token (loki_requests w).

(** [fetch_new_tokens]: the frame it ends with, and the pair it returns
    or the exception it raises. *)
Definition fetch_new_tokens (w : attempt)
    : Frame.t * outcome (option string * option string) :=
  bind
    (try_finally
       (try_except (login w)
          [(is_timeout, clear_auth_token);
           (is_no_such_element, clear_auth_token);
           (is_webdriver_exception, clear_auth_token)])
       driver_quit)
    (fun _ l => (l, Returns (Frame.auth_token l, Frame.loki_token l)))
    Frame.init.

(** ** Methods of [Puppet] *)

(** [datetime.datetime.fromtimestamp(e)] for an integer [e], as the
    platform computes it with its time zone database: the naive local date
    of the instant [e] seconds after the epoch; [None] when the call raises
    because [e] cannot be converted. *)
Variable local_datetime : Z -> option Z.

(** [datetime.datetime.fromtimestamp(v)]: a [TypeError] when [v] is a
    string or [null]; when the platform cannot convert the integer the call
    raises ([ValueError], [OverflowError] or [OSError], for which one
    constructor stands). *)
Definition fromtimestamp (v : value) : outcome Z :=
  match v with
  | VInt e =>
      match local_datetime e with
      | Some d => Returns d
      | None => Raises OverflowError
      end
  | _ => Raises TypeError
  end.

Definition decode (t : string) : outcome payload :=
  match jwt_decode t with
  | Some p => Returns p
  | None => Raises DecodeError
  end.

(** [time_til_expiration]; [now] is the naive local date that
    [datetime.now()] returns.  The result is the difference of two naive
    local dates. *)
Definition time_til_expiration (now : Z) (self : Puppet) : outcome timedelta :=
  match teams_token self with
  | None => Returns (seconds (-1))
  | Some t =>
      if String.eqb t EmptyString then Returns (seconds (-1))
      else
        catch
          (obind (decode t) (fun p =>
           obind (match payload_get p "exp" with
                  | Some v => fromtimestamp v
                  | None => Raises KeyError
                  end) (fun expiration_time =>
           Returns (expiration_time - now))))
          is_decode_error
          (Returns (seconds (-1)))
  end.

(** The condition of the [if] in [check_tokens] and in [get_token]:
    [not self.teams_token or self.time_til_expiration() <= timedelta(minutes=5)]. *)
Definition refresh_needed (now : Z) (self : Puppet) : outcome bool :=
  if negb (Py.truthy (teams_token self)) then Returns true
  else obind (time_til_expiration now self) (fun d =>
       Returns (d <=? minutes 5)).

(** [self.teams_token, self.loki_token = self.fetch_new_tokens()] *)
Definition refresh_tokens (w : attempt) (self : Puppet) : call unit :=
  match snd (fetch_new_tokens w) with
  | Returns tokens =>
      {| self_after := set_tokens tokens self; returned := Returns tt;
         fetch_calls := 1 |}
  | Raises e =>
      {| self_after := self; returned := Raises e; fetch_calls := 1 |}
  | Unfinished =>
      {| self_after := self; returned := Unfinished; fetch_calls := 1 |}
  end.

(** [check_tokens]; [w] is the environment of the call of
    [fetch_new_tokens], if there is one. *)
Definition check_tokens (now : Z) (w : attempt) (self : Puppet) : call unit :=
  match refresh_needed now self with
  | Returns true => refresh_tokens w self
  | Returns false =>
      {| self_after := self; returned := Returns tt; fetch_calls := 0 |}
  | Raises e =>
      {| self_after := self; returned := Raises e; fetch_calls := 0 |}
  | Unfinished =>
      {| self_after := self; returned := Unfinished; fetch_calls := 0 |}
  end.

(** The two [if service == ...: return ...] of [get_token]; any other
    service falls off the end of the method and yields [None]. *)
Definition token_of (service : string) (self : Puppet) : option string :=
  if String.eqb service "teams" then teams_token self
  else if String.eqb service "loki" then loki_token self
  else None.

(** [get_token]: the same [if] as [check_tokens], then the [return]. *)
Definition get_token (service : string) (now : Z) (w : attempt) (self : Puppet)
    : call (option string) :=
  let c :=
    match refresh_needed now self with
    | Returns true => refresh_tokens w self
    | Returns false =>
        {| self_after := self; returned := Returns tt; fetch_calls := 0 |}
    | Raises e =>
        {| self_after := self; returned := Raises e; fetch_calls := 0 |}
    | Unfinished =>
        {| self_after := self; returned := Unfinished; fetch_calls := 0 |}
    end in
  {| self_after := self_after c;
     returned := obind (returned c) (fun _ =>
                 Returns (token_of service (self_after c)));
     fetch_calls := fetch_calls c |}.

(** [__init__], after the scheduler is started. *)
Definition init (user pass : string) (w : attempt) : call unit :=
  refresh_tokens w
    {| username := user; password := pass;
       teams_token := None; loki_token := None |}.

(** ** Interleaved execution *)

(** One step of a thread on the shared object. *)
Definition thread_step (self : Puppet) (t : thread) : Puppet * thread :=
  match t_pc t with
  | AtCheck =>
      match refresh_needed (t_now t) self with
      | Returns b => (self, decided b t)
      | Raises e => (self, goto (Finished (Raises e)) t)
      | Unfinished => (self, goto (Finished Unfinished) t)
      end
  | AtFetch =>
      match snd (fetch_new_tokens (t_attempt t)) with
      | Returns tokens => (self, fetched (AtStore tokens) t)
      | Raises e => (self, fetched (Finished (Raises e)) t)
      | Unfinished => (self, fetched (Finished Unfinished) t)
      end
  | AtStore tokens => (set_tokens tokens self, goto AtReturn t)
  | AtReturn =>
      let v := match t_entry t with
               | GetToken service => token_of service self
               | CheckTokens => None
               end in
      (self, goto (Finished (Returns v)) t)
  | Finished _ => (self, t)
  end.

(** Thread [i] takes a step. *)
Definition system_step (i : nat) (s : system) : system :=
  match nth_error (threads s) i with
  | Some t =>
      let '(self, t') := thread_step (shared s) t in
      {| shared := self; threads := update_nth i t' (threads s) |}
  | None => s
  end.

(** A schedule names the thread that moves at each step. *)
Fixpoint run (schedule : list nat) (s : system) : system :=
  match schedule with
  | [] => s
  | i :: rest => run rest (system_step i s)
  end.

End Decode.

(** ** Concrete environments *)

Module Fixture.

(** A decoder given by a table: the listed tokens decode, all others are
    malformed. *)
Definition table_decode (table : list (string * payload)) (t : string)
    : option payload :=
  match find (fun e => String.eqb (fst e) t) table with
  | Some e => Some (snd e)
  | None => None
  end.

(** [X] is a Teams token, [G] a token for another audience, [OLD] a Teams
    token that expired long ago. *)
Definition jwt : string -> option payload :=
  table_decode
    [("X", [("aud", VStr teams_audience); ("exp", VInt 1700003600)]);
     ("G", [("aud", VStr "https://graph.microsoft.com"); ("exp", VInt 1700003600)]);
     ("OLD", [("aud", VStr teams_audience); ("exp", VInt 1600000000)])].

(** A platform in a zone whose offset from UTC at the instant [e] is
    [utcoffset e] seconds; it converts the timestamps from 1970-01-02 to
    the end of 2999 (UTC). *)
Definition zone (utcoffset : Z -> Z) (e : Z) : option Z :=
  if (86400 <=? e) && (e <? 32503680000)
  then Some (seconds (e + utcoffset e))
  else None.

(** A platform on UTC. *)
Definition utc : Z -> option Z := zone (fun _ => 0).

(** A reading of [datetime.now()] on UTC, 1700000000 seconds after the
    epoch. *)
Definition now : Z := seconds 1700000000.

Definition req (u h : string) : request :=
  {| url := u; headers := [("Authorization", h)] |}.

(** The log holds [rs] from the start; the first poll is at 0 s, the
    second at 31 s. *)
Definition log (rs : list request) : scan_script :=
  {| start_time := 0;
     polls := [ {| p_now := 0; p_requests := rs; p_requests_after := rs |};
                {| p_now := seconds 31; p_requests := rs; p_requests_after := rs |} ] |}.

(** A log that grows while it is scanned: the second request arrives
    between the slice and the cursor update of the first poll, the third
    before the second poll. *)
Definition growing_log : scan_script :=
  let a := req "https://graph.microsoft.com/v1.0/me" "Bearer G" in
  let b := req "https://graph.microsoft.com/v1.0/users" "Bearer G" in
  let c := req "https://example.com/" "Basic dXNlcg==" in
  {| start_time := 0;
     polls := [ {| p_now := 0; p_requests := [a];
                   p_requests_after := [a; b] |};
                {| p_now := 100000; p_requests := [a; b; c];
                   p_requests_after := [a; b; c] |};
                {| p_now := 200000; p_requests := [a; b; c];
                   p_requests_after := [a; b; c] |};
                {| p_now := seconds 31; p_requests := [a; b; c];
                   p_requests_after := [a; b; c] |} ] |}.

(** Every interaction succeeds. *)
Definition session (teams_log loki_log : list request) : attempt :=
  {| chromedriver_install := None; chrome := None; get_teams := None;
     email_input_wait := None; email_input_send_keys := None;
     next_button_wait := None; next_button_click := None;
     password_input_wait := None; password_input_send_keys := None;
     sign_in_button_wait := None; sign_in_button_click := None;
     stay_signed_in_wait := None; yes_button_wait := None;
     yes_button_click := None;
     teams_requests := log teams_log;
     profile_button_wait := None; profile_button_click := None;
     view_button_wait := None; view_button_click := None;
     loki_requests := log loki_log |}.

Definition teams_request : request :=
  req "https://teams.microsoft.com/api/chatsvc" "Bearer X".
Definition loki_request : request :=
  req "https://loki.delve.office.com" "Bearer Y".

Definition good_session : attempt := session [teams_request] [loki_request].

(** The password field never appears. *)
Definition password_timeout : attempt :=
  {| chromedriver_install := None; chrome := None; get_teams := None;
     email_input_wait := None; email_input_send_keys := None;
     next_button_wait := None; next_button_click := None;
     password_input_wait := Some TimeoutException;
     password_input_send_keys := None;
     sign_in_button_wait := None; sign_in_button_click := None;
     stay_signed_in_wait := None; yes_button_wait := None;
     yes_button_click := None;
     teams_requests := log [teams_request];
     profile_button_wait := None; profile_button_click := None;
     view_button_wait := None; view_button_click := None;
     loki_requests := log [loki_request] |}.

(** The browser cannot be started. *)
Definition no_browser : attempt :=
  {| chromedriver_install := None; chrome := Some WebDriverException;
     get_teams := None;
     email_input_wait := None; email_input_send_keys := None;
     next_button_wait := None; next_button_click := None;
     password_input_wait := None; password_input_send_keys := None;
     sign_in_button_wait := None; sign_in_button_click := None;
     stay_signed_in_wait := None; yes_button_wait := None;
     yes_button_click := None;
     teams_requests := log [teams_request];
     profile_button_wait := None; profile_button_click := None;
     view_button_wait := None; view_button_click := None;
     loki_requests := log [loki_request] |}.

(** The driver binary cannot be installed. *)
Definition no_chromedriver : attempt :=
  {| chromedriver_install := Some OtherException; chrome := None;
     get_teams := None;
     email_input_wait := None; email_input_send_keys := None;
     next_button_wait := None; next_button_click := None;
     password_input_wait := None; password_input_send_keys := None;
     sign_in_button_wait := None; sign_in_button_click := None;
     stay_signed_in_wait := None; yes_button_wait := None;
     yes_button_click := None;
     teams_requests := log [teams_request];
     profile_button_wait := None; profile_button_click := None;
     view_button_wait := None; view_button_click := None;
     loki_requests := log [loki_request] |}.

Definition puppet (teams loki : option string) : Puppet :=
  {| username := "user@example.com"; password := "secret";
     teams_token := teams; loki_token := loki |}.

End Fixture.

(** ** Predicates of the statements *)

(** [m] keeps [P] when it returns, and when it raises. *)
Definition keeps_on_return {A : Type} (P : Frame.t -> Prop) (m : M A) : Prop :=
  forall l l' a, P l -> m l = (l', Returns a) -> P l'.

Definition keeps_on_raise {A : Type} (P : Frame.t -> Prop) (m : M A) : Prop :=
  forall l l' e, P l -> m l = (l', Raises e) -> P l'.

(** Before the second scan: [loki_token] is still [None] and
    [driver.quit()] has not been called. *)
Definition untouched (l : Frame.t) : Prop :=
  Frame.loki_token l = None /\ Frame.quit_calls l = O.

(** [t] is the second of exactly two space-separated parts of an
    [Authorization] header that contains [Bearer]. *)
Definition extracted (r : request) (t : string) : Prop :=
  exists h a,
    headers_get (headers r) "Authorization" = Some h /\
    Py.contains "Bearer" h = true /\
    Py.split_space h = [a; t].

(** The destination host as the claim reads a URL: what stands between
    [://] and the next [/]. *)
Module Spec.

Fixpoint until_slash (s : string) : string :=
  match s with
  | EmptyString => EmptyString
  | String c rest =>
      if Ascii.eqb c "/"%char then EmptyString else String c (until_slash rest)
  end.

Fixpoint after_scheme (s : string) : string :=
  match s with
  | EmptyString => EmptyString
  | String _ rest =>
      if String.prefix "://" s
      then String.substring 3 (String.length s - 3) s
      else after_scheme rest
  end.

Definition destination_host (r : request) : string :=
  until_slash (after_scheme (url r)).

End Spec.

(** [b] is [a] with entries appended. *)
Definition extends {A : Type} (a b : list A) : Prop :=
  exists c, b = (a ++ c)%list.

(** [driver.requests] is append-only: every reading of it extends the
    reading before, starting from [seen]. *)
Fixpoint append_only (seen : list request) (ps : list poll) : Prop :=
  match ps with
  | [] => True
  | p :: ps' =>
      extends seen (p_requests p) /\
      extends (p_requests p) (p_requests_after p) /\
      append_only (p_requests_after p) ps'
  end.

(** The iteration recorded as [r] visited the request at index [k] of the
    log. *)
Definition examines (r : poll_record) (k : nat) : Prop :=
  (from_index r <= k < from_index r + visited r)%nat.

(** Every iteration starts at or after [c] and where the one before
    stopped. *)
Fixpoint chained (c : nat) (tr : list poll_record) : Prop :=
  match tr with
  | [] => True
  | r :: tr' =>
      (c <= from_index r)%nat /\ chained (from_index r + visited r) tr'
  end.

(** How the position of a thread, the value of its condition and the
    number of its logins go together. *)
Definition accounted (t : thread) : Prop :=
  match t_pc t with
  | AtCheck => t_needed t = None /\ t_runs t = O
  | AtFetch => t_needed t = Some true /\ t_runs t = O
  | AtStore _ => t_needed t = Some true /\ t_runs t = 1%nat
  | AtReturn | Finished _ =>
      t_runs t = match t_needed t with
                 | Some true => 1%nat
                 | _ => O
                 end
  end.

(** ** Parts of one attempt *)

(** The first exception of three interactions made one after the other. *)
Definition first_raised (a b c : effect) : effect :=
  match a with
  | Some e => Some e
  | None => match b with
            | Some e => Some e
            | None => c
            end
  end.

(** What the block under the inner [try] raises, if anything. *)
Definition stay_signed_in_raised (w : attempt) : effect :=
  first_raised (stay_signed_in_wait w) (yes_button_wait w) (yes_button_click w).

(** [w] with other effects for the three interactions of the inner
    [try]. *)
Definition set_stay_signed_in (a b c : effect) (w : attempt) : attempt :=
  {| chromedriver_install := chromedriver_install w;
     chrome := chrome w;
     get_teams := get_teams w;
     email_input_wait := email_input_wait w;
     email_input_send_keys := email_input_send_keys w;
     next_button_wait := next_button_wait w;
     next_button_click := next_button_click w;
     password_input_wait := password_input_wait w;
     password_input_send_keys := password_input_send_keys w;
     sign_in_button_wait := sign_in_button_wait w;
     sign_in_button_click := sign_in_button_click w;
     stay_signed_in_wait := a;
     yes_button_wait := b;
     yes_button_click := c;
     teams_requests := teams_requests w;
     profile_button_wait := profile_button_wait w;
     profile_button_click := profile_button_click w;
     view_button_wait := view_button_wait w;
     view_button_click := view_button_click w;
     loki_requests := loki_requests w |}.

(** Every interaction up to the click on [Sign in] returns. *)
Definition credentials_entered (w : attempt) : Prop :=
  chromedriver_install w = None /\ chrome w = None /\ get_teams w = None /\
  email_input_wait w = None /\ email_input_send_keys w = None /\
  next_button_wait w = None /\ next_button_click w = None /\
  password_input_wait w = None /\ password_input_send_keys w = None /\
  sign_in_button_wait w = None /\ sign_in_button_click w = None.

(** The inner [try] block ends normally or with a [TimeoutException]. *)
Definition stay_signed_in_passes (w : attempt) : Prop :=
  stay_signed_in_raised w = None \/
  stay_signed_in_raised w = Some TimeoutException.

(** The two clicks that open the profile return. *)
Definition profile_opened (w : attempt) : Prop :=
  profile_button_wait w = None /\ profile_button_click w = None /\
  view_button_wait w = None /\ view_button_click w = None.

(** The clock of the script reaches the deadline of the scan. *)
Definition reaches_deadline (s : scan_script) : Prop :=
  exists p, In p (polls s) /\ scan_deadline <= p_now p - start_time s.

(** [m] never ends as [Unfinished]. *)
Definition finishes {A : Type} (m : M A) : Prop :=
  forall l, snd (m l) <> Unfinished.

(** [t] was taken from the header of a request that the log of the scan
    held at a poll before the deadline. *)
Definition captured (s : scan_script) (good : request -> Prop) (t : string)
    : Prop :=
  exists p r,
    In p (polls s) /\ In r (p_requests p) /\
    p_now p - start_time s < scan_deadline /\
    good r /\ extracted r t.

(** The request passes the test on the URL of the second scan. *)
Definition loki_url (r : request) : Prop :=
  Py.endswith (url r) loki_suffix = true.

(** The [Authorization] header of the request passes the two guards of
    the loops: it contains [Bearer] and splits at single spaces into
    exactly two parts. *)
Definition passes_guards (r : request) : bool :=
  match headers_get (headers r) "Authorization" with
  | Some h =>
      Py.contains "Bearer" h && (length (Py.split_space h) =? 2)%nat
  | None => false
  end.

(** The request passes the test on the URL and the two guards of the
    second loop. *)
Definition loki_matches (r : request) : bool :=
  Py.endswith (url r) loki_suffix && passes_guards r.

(** The cursor after the polls [ps], all of them executed, from the
    cursor [c]. *)
Definition cursor_after (c : nat) (ps : list poll) : nat :=
  fold_left (fun _ q => length (p_requests_after q)) ps c.

(** The requests that the polls [ps] hand to the inner loop, one slice
    after the other, from the cursor [c]. *)
Fixpoint slices (c : nat) (ps : list poll) : list request :=
  match ps with
  | [] => []
  | q :: rest =>
      (skipn c (p_requests q) ++ slices (length (p_requests_after q)) rest)%list
  end.

(** ** More concrete environments *)

Module Sample.

(** [NOAUD] decodes to a payload without [aud], [NOEXP] to one without
    [exp], [TEXT] to one whose [exp] is a string; [DST] expires at the
    instant 1699165800 (2023-11-05 06:30:00 UTC). *)
Definition jwt : string -> option payload :=
  Fixture.table_decode
    [("X", [("aud", VStr teams_audience); ("exp", VInt 1700003600)]);
     ("NOAUD", [("exp", VInt 1700003600)]);
     ("NOEXP", [("aud", VStr teams_audience)]);
     ("TEXT", [("aud", VStr teams_audience); ("exp", VStr "tomorrow")]);
     ("DST", [("aud", VStr teams_audience); ("exp", VInt 1699165800)])].

(** A platform in a zone that is four hours behind UTC until the instant
    1699164000 (2023-11-05 06:00:00 UTC) and five hours behind from then
    on, as New York is. *)
Definition new_york : Z -> option Z :=
  Fixture.zone (fun e => if e <? 1699164000 then -14400 else -18000).

Definition noaud_request : request :=
  Fixture.req "https://example.org/api" "Bearer NOAUD".

(** The Teams request arrives after the deadline. *)
Definition late_log : scan_script :=
  {| start_time := 0;
     polls := [ {| p_now := 0; p_requests := []; p_requests_after := [] |};
                {| p_now := seconds 31;
                   p_requests := [Fixture.teams_request];
                   p_requests_after := [Fixture.teams_request] |} ] |}.

(** The Teams request arrives during the first poll, between the slice
    and the update of the cursor. *)
Definition gap_log : scan_script :=
  let a := Fixture.req "https://example.org/" "Basic dXNlcg==" in
  {| start_time := 0;
     polls := [ {| p_now := 0; p_requests := [a];
                   p_requests_after := [a; Fixture.teams_request] |};
                {| p_now := 100000;
                   p_requests := [a; Fixture.teams_request];
                   p_requests_after := [a; Fixture.teams_request] |};
                {| p_now := seconds 31;
                   p_requests := [a; Fixture.teams_request];
                   p_requests_after := [a; Fixture.teams_request] |} ] |}.

(** The login works and the Teams token is in the log, but the profile
    button never becomes clickable. *)
Definition profile_timeout : attempt :=
  {| chromedriver_install := None; chrome := None; get_teams := None;
     email_input_wait := None; email_input_send_keys := None;
     next_button_wait := None; next_button_click := None;
     password_input_wait := None; password_input_send_keys := None;
     sign_in_button_wait := None; sign_in_button_click := None;
     stay_signed_in_wait := None; yes_button_wait := None;
     yes_button_click := None;
     teams_requests := Fixture.log [Fixture.teams_request];
     profile_button_wait := Some TimeoutException;
     profile_button_click := None;
     view_button_wait := None; view_button_click := None;
     loki_requests := Fixture.log [Fixture.loki_request] |}.

End Sample.

(** What the two clicks that open the profile raise, if anything. *)
Definition profile_raised (w : attempt) : effect :=
  match profile_button_wait w with
  | Some e => Some e
  | None => first_raised (profile_button_click w) (view_button_wait w)
              (view_button_click w)
  end.

(** * Properties *)

(** ** The model on small inputs *)

Example split_bearer : Py.split_space "Bearer abc" = ["Bearer"; "abc"].
Proof. reflexivity. Qed.

Example split_two_spaces : Py.split_space "Bearer  abc" = ["Bearer"; EmptyString; "abc"].
Proof. reflexivity. Qed.

Example endswith_host :
  Py.endswith "https://loki.delve.office.com" "loki.delve.office.com" = true.
Proof. reflexivity. Qed.

Example headers_get_nocase :
  headers_get [("authorization", "Bearer x")] "Authorization" = Some "Bearer x".
Proof. reflexivity. Qed.

(** A login in which everything works: both tokens, one [quit]. *)
Example fetch_good_session :
  fetch_new_tokens Fixture.jwt Fixture.good_session
  = ({| Frame.auth_token := Some "X"; Frame.loki_token := Some "Y";
        Frame.driver := true; Frame.quit_calls := 1 |},
     Returns (Some "X", Some "Y")).
Proof. reflexivity. Qed.

(** The password field never appears: [(None, None)], one [quit]. *)
Example fetch_password_timeout :
  fetch_new_tokens Fixture.jwt Fixture.password_timeout
  = ({| Frame.auth_token := None; Frame.loki_token := None;
        Frame.driver := true; Frame.quit_calls := 1 |},
     Returns (None, None)).
Proof. reflexivity. Qed.

(** The first scan stops at the first Teams token and does not look at
    the request after it. *)
Example teams_scan_first_match :
  teams_scan Fixture.jwt
    (Fixture.log [Fixture.req "https://a.example/" "Bearer G";
                  Fixture.teams_request;
                  Fixture.req "https://b.example/" "Bearer G"]) None
  = ([{| from_index := 0; visited := 2 |}],
     Returns {| token := Some "X"; found := true; last_checked_index := 3 |}).
Proof. reflexivity. Qed.

(** ** Reasoning about statements *)

Lemma bind_returns_inv {A B : Type} (m : M A) (k : A -> M B) l l' b :
  bind m k l = (l', Returns b) ->
  exists a l1, m l = (l1, Returns a) /\ k a l1 = (l', Returns b).
Proof.
  unfold bind. destruct (m l) as [l1 [a|e|]]; intros H; try discriminate.
  exists a, l1. auto.
Qed.

Lemma bind_raises_inv {A B : Type} (m : M A) (k : A -> M B) l l' e :
  bind m k l = (l', Raises e) ->
  m l = (l', Raises e) \/
  exists a l1, m l = (l1, Returns a) /\ k a l1 = (l', Raises e).
Proof.
  unfold bind. destruct (m l) as [l1 [a|x|]]; intros H; try discriminate.
  - right. exists a, l1. auto.
  - left. inversion H. reflexivity.
Qed.

Lemma keeps_bind_return {A B : Type} P (m : M A) (k : A -> M B) :
  keeps_on_return P m -> (forall a, keeps_on_return P (k a)) ->
  keeps_on_return P (bind m k).
Proof.
  intros Hm Hk l l' b HP H.
  apply bind_returns_inv in H. destruct H as (a & l1 & H1 & H2).
  eapply Hk; [eapply Hm; eauto | eauto].
Qed.

Lemma keeps_bind_raise {A B : Type} P (m : M A) (k : A -> M B) :
  keeps_on_return P m -> keeps_on_raise P m ->
  (forall a, keeps_on_raise P (k a)) ->
  keeps_on_raise P (bind m k).
Proof.
  intros Hr Hm Hk l l' e HP H.
  apply bind_raises_inv in H. destruct H as [H | (a & l1 & H1 & H2)].
  - eapply Hm; eauto.
  - eapply Hk; [eapply Hr; eauto | eauto].
Qed.

Lemma step_frame (e : effect) l l' (r : outcome unit) :
  step e l = (l', r) -> l' = l.
Proof. unfold step. destruct e; intros H; inversion H; reflexivity. Qed.

Lemma keeps_step_return P e : keeps_on_return P (step e).
Proof. intros l l' a HP H. apply step_frame in H. subst. exact HP. Qed.

Lemma keeps_step_raise P e : keeps_on_raise P (step e).
Proof. intros l l' a HP H. apply step_frame in H. subst. exact HP. Qed.

Lemma keeps_ret_return {A : Type} P (a : A) : keeps_on_return P (ret a).
Proof. intros l l' b HP H. inversion H. subst. exact HP. Qed.

Lemma keeps_try_except_return P m h :
  keeps_on_return P m -> keeps_on_raise P m -> keeps_on_return P h ->
  keeps_on_return P (try_except m [(is_timeout, h)]).
Proof.
  intros Hr Hx Hh l l' a HP. unfold try_except.
  destruct (m l) as [l1 [u|e|]] eqn:E; cbn.
  - intros H. inversion H. subst. eapply Hr; eauto.
  - destruct (is_timeout e).
    + intros H. eapply Hh; [eapply Hx; eauto | eauto].
    + discriminate.
  - discriminate.
Qed.

Lemma keeps_try_except_raise P m h :
  keeps_on_raise P m -> keeps_on_raise P h ->
  keeps_on_raise P (try_except m [(is_timeout, h)]).
Proof.
  intros Hx Hh l l' a HP. unfold try_except.
  destruct (m l) as [l1 [u|e|]] eqn:E; cbn.
  - discriminate.
  - destruct (is_timeout e).
    + intros H. eapply Hh; [eapply Hx; eauto | eauto].
    + intros H. inversion H. subst. eapply Hx; eauto.
  - discriminate.
Qed.

(** ** Loops that cannot raise *)

Lemma for_requests_no_throw {St : Type} (body : request -> St -> ctl St) :
  (forall r s e, body r s <> Throw e) ->
  forall rs s e, fst (for_requests body rs s) <> Throw e.
Proof.
  intros Hb rs. induction rs as [|r rs IH]; intros s e; cbn.
  - discriminate.
  - destruct (body r s) as [s'|s'|x] eqn:E.
    + specialize (IH s' e). destruct (for_requests body rs s') as [c n].
      exact IH.
    + discriminate.
    + exfalso. exact (Hb _ _ _ E).
Qed.

Lemma scan_while_no_raise {St : Type} (body : request -> St -> ctl St) start :
  (forall r s e, body r s <> Throw e) ->
  forall ps st e, snd (scan_while body start ps st) <> Raises e.
Proof.
  intros Hb ps. induction ps as [|p ps IH]; intros st e; cbn [scan_while].
  - destruct (found st); discriminate.
  - destruct (found st); [discriminate|].
    destruct (p_now p - start <? scan_deadline); [|discriminate].
    pose proof (for_requests_no_throw body Hb
      (skipn (last_checked_index st) (p_requests p)) (token st)) as Hf.
    destruct (for_requests body _ (token st)) as [c n].
    destruct c as [t|t|x]; cbn [with_record snd fst].
    + apply IH.
    + apply IH.
    + exfalso. exact (Hf x eq_refl).
Qed.

Lemma loki_body_no_throw r s e : loki_body r s <> Throw e.
Proof.
  unfold loki_body.
  destruct (negb (Py.endswith (url r) loki_suffix)); [discriminate|].
  destruct (headers_get (headers r) "Authorization") as [h|]; [|discriminate].
  destruct (String.eqb h EmptyString); [discriminate|].
  destruct (negb (Py.contains "Bearer" h)); [discriminate|].
  destruct (negb _); discriminate.
Qed.

Lemma capture_loki_no_raise s l l' e :
  capture_loki_token s l <> (l', Raises e).
Proof.
  unfold capture_loki_token.
  pose proof (scan_while_no_raise loki_body (start_time s) loki_body_no_throw
    (polls s) (scan_init (Frame.loki_token l))) as H.
  unfold loki_scan.
  destruct (snd (scan_while loki_body _ _ _)) as [st|x|]; try discriminate.
  exfalso. exact (H x eq_refl).
Qed.

(** ** Invariants of the [try] block *)

Section Invariant.

Variable jwt_decode : string -> option payload.
Variable P : Frame.t -> Prop.
Hypothesis P_auth : forall v l, P l -> P (Frame.set_auth_token v l).
Hypothesis P_driver : forall l, P l -> P (Frame.bind_driver l).

Lemma new_driver_keeps_return e : keeps_on_return P (new_driver e).
Proof.
  intros l l' a HP. unfold new_driver. destruct e; intros H; inversion H.
  subst. auto.
Qed.

Lemma new_driver_keeps_raise e : keeps_on_raise P (new_driver e).
Proof.
  intros l l' a HP. unfold new_driver. destruct e; intros H; inversion H.
  subst. exact HP.
Qed.

Lemma capture_teams_keeps_return s :
  keeps_on_return P (capture_teams_token jwt_decode s).
Proof.
  intros l l' a HP. unfold capture_teams_token.
  destruct (snd (teams_scan jwt_decode s (Frame.auth_token l))) as [st|e|];
    try discriminate.
  destruct (negb _); intros H; inversion H; subst; auto.
Qed.

Lemma capture_teams_keeps_raise s :
  keeps_on_raise P (capture_teams_token jwt_decode s).
Proof.
  intros l l' a HP. unfold capture_teams_token.
  destruct (snd (teams_scan jwt_decode s (Frame.auth_token l))) as [st|e|];
    try discriminate.
  - destruct (negb _); discriminate.
  - intros H; inversion H; subst; exact HP.
Qed.

Ltac keep_steps :=
  repeat first
    [ apply keeps_step_return | apply keeps_step_raise
    | apply new_driver_keeps_return | apply new_driver_keeps_raise
    | apply capture_teams_keeps_return | apply capture_teams_keeps_raise
    | apply keeps_ret_return
    | apply keeps_try_except_raise | apply keeps_try_except_return
    | apply keeps_bind_raise | apply keeps_bind_return
    | intros _ ].

(** An invariant that the assignments to [auth_token] and to [driver]
    respect holds whenever the [try] block raises. *)
Lemma login_keeps_raise (w : attempt) : keeps_on_raise P (login jwt_decode w).
Proof.
  unfold login. keep_steps.
  all: try (intros l0 l1 x _ Hx; inversion Hx; fail).
  intros l0 l1 x _ Hx. exfalso. exact (capture_loki_no_raise _ _ _ _ Hx).
Qed.

Hypothesis P_loki : forall v l, P l -> P (Frame.set_loki_token v l).

Lemma capture_loki_keeps_return s : keeps_on_return P (capture_loki_token s).
Proof.
  intros l l' a HP. unfold capture_loki_token.
  destruct (snd (loki_scan s (Frame.loki_token l))) as [st|e|];
    try discriminate.
  intros H; inversion H; subst; auto.
Qed.

(** If the assignment to [loki_token] respects it too, it also holds
    when the block ends normally. *)
Lemma login_keeps_return (w : attempt) : keeps_on_return P (login jwt_decode w).
Proof.
  unfold login. keep_steps.
  all: try (intros l0 l1 x _ Hx; inversion Hx; fail).
  apply capture_loki_keeps_return.
Qed.

End Invariant.

Section Properties.

Variable jwt_decode : string -> option payload.

Lemma capture_teams_untouched_return s :
  keeps_on_return untouched (capture_teams_token jwt_decode s).
Proof.
  intros l l' a HP. unfold capture_teams_token.
  destruct (snd (teams_scan jwt_decode s (Frame.auth_token l))) as [st|e|];
    try discriminate.
  destruct (negb _); intros H; inversion H; subst; exact HP.
Qed.

Lemma capture_teams_untouched_raise s :
  keeps_on_raise untouched (capture_teams_token jwt_decode s).
Proof.
  intros l l' a HP. unfold capture_teams_token.
  destruct (snd (teams_scan jwt_decode s (Frame.auth_token l))) as [st|e|];
    try discriminate.
  - destruct (negb _); discriminate.
  - intros H; inversion H; subst; exact HP.
Qed.

(** When the [try] block raises, the second scan has not assigned
    [loki_token] and [driver.quit()] has not run. *)
Lemma login_raises_untouched (w : attempt) l e :
  login jwt_decode w Frame.init = (l, Raises e) -> untouched l.
Proof.
  apply (login_keeps_raise jwt_decode untouched); try (intros; assumption).
  split; reflexivity.
Qed.

(** Nothing inside the [try] block calls [driver.quit()]. *)
Lemma login_no_quit (w : attempt) l r :
  login jwt_decode w Frame.init = (l, r) -> r <> Unfinished ->
  Frame.quit_calls l = O.
Proof.
  intros H Hr. destruct r as [[]|e|].
  - revert H.
    apply (login_keeps_return jwt_decode (fun l => Frame.quit_calls l = O));
      try (intros; assumption). reflexivity.
  - revert H.
    apply (login_keeps_raise jwt_decode (fun l => Frame.quit_calls l = O));
      try (intros; assumption). reflexivity.
  - congruence.
Qed.

(** Once the driver exists, [driver] stays bound. *)
Lemma login_driver_bound (w : attempt) l r :
  chromedriver_install w = None -> chrome w = None ->
  login jwt_decode w Frame.init = (l, r) -> r <> Unfinished ->
  Frame.driver l = true.
Proof.
  intros Hi Hc H Hr.
  assert (E : login jwt_decode w Frame.init
              = login jwt_decode w (Frame.bind_driver Frame.init)).
  { unfold login, bind. rewrite Hi, Hc. reflexivity. }
  rewrite E in H. destruct r as [[]|e|].
  - revert H.
    apply (login_keeps_return jwt_decode (fun l => Frame.driver l = true));
      try (intros; assumption); reflexivity.
  - revert H.
    apply (login_keeps_raise jwt_decode (fun l => Frame.driver l = true));
      try (intros; assumption); reflexivity.
  - congruence.
Qed.

(** ** The [except] clauses and the [finally] clause *)

Lemma handle_webdriver_exception (e : exn) (l : Frame.t) :
  is_webdriver_exception e = true ->
  handle [(is_timeout, clear_auth_token);
          (is_no_such_element, clear_auth_token);
          (is_webdriver_exception, clear_auth_token)] e l
  = (Frame.set_auth_token None l, Returns tt).
Proof. destruct e; cbn; intros H; try discriminate; reflexivity. Qed.

Lemma handle_other_exception (e : exn) (l : Frame.t) :
  is_webdriver_exception e = false ->
  handle [(is_timeout, clear_auth_token);
          (is_no_such_element, clear_auth_token);
          (is_webdriver_exception, clear_auth_token)] e l
  = (l, Raises e).
Proof. destruct e; cbn; intros H; try discriminate; reflexivity. Qed.

(** A selenium exception raised while the driver exists: the function
    quits the driver once and returns [(None, None)]. *)
Lemma fetch_after_webdriver_exception (w : attempt) l e :
  login jwt_decode w Frame.init = (l, Raises e) ->
  is_webdriver_exception e = true ->
  Frame.driver l = true ->
  fetch_new_tokens jwt_decode w
  = (Frame.count_quit (Frame.set_auth_token None l), Returns (None, None)).
Proof.
  intros H He Hd. destruct (login_raises_untouched w l e H) as [Hl _].
  unfold fetch_new_tokens, bind, try_finally, try_except. rewrite H.
  rewrite (handle_webdriver_exception e l He).
  unfold driver_quit. cbn. rewrite Hd. cbn. rewrite Hl. reflexivity.
Qed.

(** Any other exception raised while the driver exists leaves the
    function after the driver is quit once. *)
Lemma fetch_after_other_exception (w : attempt) l e :
  login jwt_decode w Frame.init = (l, Raises e) ->
  is_webdriver_exception e = false ->
  Frame.driver l = true ->
  fetch_new_tokens jwt_decode w = (Frame.count_quit l, Raises e).
Proof.
  intros H He Hd.
  unfold fetch_new_tokens, bind, try_finally, try_except. rewrite H.
  rewrite (handle_other_exception e l He).
  unfold driver_quit. rewrite Hd. reflexivity.
Qed.

Lemma fetch_after_return (w : attempt) l :
  login jwt_decode w Frame.init = (l, Returns tt) ->
  Frame.driver l = true ->
  fetch_new_tokens jwt_decode w
  = (Frame.count_quit l, Returns (Frame.auth_token l, Frame.loki_token l)).
Proof.
  intros H Hd.
  unfold fetch_new_tokens, bind, try_finally, try_except. rewrite H.
  unfold driver_quit. rewrite Hd. reflexivity.
Qed.

(** With a driver, every way out of the function that the model follows
    to its end calls [driver.quit()] exactly once. *)
Lemma fetch_quits_once (w : attempt) :
  chromedriver_install w = None -> chrome w = None ->
  snd (login jwt_decode w Frame.init) <> Unfinished ->
  Frame.quit_calls (fst (fetch_new_tokens jwt_decode w)) = 1%nat.
Proof.
  intros Hi Hc Hr.
  destruct (login jwt_decode w Frame.init) as [l r] eqn:H. cbn in Hr.
  pose proof (login_driver_bound w l r Hi Hc H Hr) as Hd.
  pose proof (login_no_quit w l r H Hr) as Hq.
  destruct r as [[]|e|].
  - rewrite (fetch_after_return w l H Hd). cbn. rewrite Hq. reflexivity.
  - destruct (is_webdriver_exception e) eqn:He.
    + rewrite (fetch_after_webdriver_exception w l e H He Hd). cbn.
      rewrite Hq. reflexivity.
    + rewrite (fetch_after_other_exception w l e H He Hd). cbn.
      rewrite Hq. reflexivity.
  - congruence.
Qed.

(** Without a driver the [finally] clause fails on the unbound name. *)
Lemma fetch_without_driver (w : attempt) e :
  chromedriver_install w = Some e \/
  (chromedriver_install w = None /\ chrome w = Some e) ->
  fetch_new_tokens jwt_decode w = 
  (if is_webdriver_exception e then Frame.set_auth_token None Frame.init
   else Frame.init, Raises UnboundLocalError).
Proof.
  intros H.
  assert (E : login jwt_decode w Frame.init = (Frame.init, Raises e)).
  { unfold login, bind. destruct H as [H | [H1 H2]].
    - rewrite H. reflexivity.
    - rewrite H1, H2. reflexivity. }
  unfold fetch_new_tokens, bind, try_finally, try_except. rewrite E.
  destruct (is_webdriver_exception e) eqn:He.
  - rewrite (handle_webdriver_exception e _ He). reflexivity.
  - rewrite (handle_other_exception e _ He). reflexivity.
Qed.

End Properties.

(** ** C1: a failed refresh and the stored tokens *)

(** C1, as stated, fails: the record does not survive a failed refresh.
    The stored pair is [(Some "OLD", Some "L0")] with an expired Teams
    token; the password field never appears, so the [try] block raises
    [TimeoutException]; [check_tokens] returns normally and the stored
    pair is no longer what it was. *)
Lemma C1_failed_refresh_overwrites :
  let before := Fixture.puppet (Some "OLD") (Some "L0") in
  let c := check_tokens Fixture.jwt Fixture.utc Fixture.now Fixture.password_timeout before in
  snd (login Fixture.jwt Fixture.password_timeout Frame.init)
    = Raises TimeoutException /\
  returned c = Returns tt /\
  fetch_calls c = 1%nat /\
  (teams_token (self_after c), loki_token (self_after c)) = (None, None) /\
  (teams_token (self_after c), loki_token (self_after c))
    <> (teams_token before, loki_token before).
Proof. cbv. repeat split; discriminate. Qed.

(** C1 (amended): when a refresh is needed and the attempt fails with a
    selenium exception (timeout, missing element, driver error) raised
    while the driver exists, [check_tokens] and [get_token] return normally
    after one call of [fetch_new_tokens], and both stored tokens are absent
    afterwards, whatever was stored before. *)
Theorem C1_failed_refresh_clears_record
    (jwt_decode : string -> option payload)
    (local_datetime : Z -> option Z) (now : Z) (w : attempt)
    (self : Puppet) (service : string) (l : Frame.t) (e : exn) :
  refresh_needed jwt_decode local_datetime now self = Returns true ->
  login jwt_decode w Frame.init = (l, Raises e) ->
  is_webdriver_exception e = true ->
  Frame.driver l = true ->
  let c := check_tokens jwt_decode local_datetime now w self in
  let g := get_token jwt_decode local_datetime service now w self in
  returned c = Returns tt /\ fetch_calls c = 1%nat /\
  teams_token (self_after c) = None /\ loki_token (self_after c) = None /\
  returned g = Returns None /\ fetch_calls g = 1%nat /\
  teams_token (self_after g) = None /\ loki_token (self_after g) = None.
Proof.
  intros Hn Hl He Hd.
  pose proof (fetch_after_webdriver_exception jwt_decode w l e Hl He Hd) as Hf.
  unfold check_tokens, get_token, refresh_tokens. rewrite Hn, Hf. cbn.
  unfold token_of. cbn.
  destruct (String.eqb service "teams"), (String.eqb service "loki");
    repeat split; reflexivity.
Qed.

Lemma C1_failed_refresh_clears_record_witness :
  let self := Fixture.puppet (Some "OLD") (Some "L0") in
  let c := check_tokens Fixture.jwt Fixture.utc Fixture.now Fixture.password_timeout self in
  let g := get_token Fixture.jwt Fixture.utc "loki" Fixture.now Fixture.password_timeout
             self in
  refresh_needed Fixture.jwt Fixture.utc Fixture.now self = Returns true /\
  login Fixture.jwt Fixture.password_timeout Frame.init
    = (Frame.bind_driver Frame.init, Raises TimeoutException) /\
  (returned c = Returns tt /\ fetch_calls c = 1%nat /\
   teams_token (self_after c) = None /\ loki_token (self_after c) = None /\
   returned g = Returns None /\ fetch_calls g = 1%nat /\
   teams_token (self_after g) = None /\ loki_token (self_after g) = None).
Proof.
  split; [reflexivity|]. split; [reflexivity|].
  apply (C1_failed_refresh_clears_record Fixture.jwt Fixture.utc Fixture.now
           Fixture.password_timeout (Fixture.puppet (Some "OLD") (Some "L0"))
           "loki"
           (Frame.bind_driver Frame.init) TimeoutException);
    reflexivity.
Defined.

(** ** C6 and C8: the driver that was never created *)

(** C6: the browser cannot be started ([webdriver.Chrome] raises a
    [WebDriverException]).  The [except] clause handles the exception, but
    [fetch_new_tokens] does not return [(None, None)]: the [finally] clause
    raises [UnboundLocalError]. *)
Theorem C6_driver_error_at_construction (jwt_decode : string -> option payload) :
  login jwt_decode Fixture.no_browser Frame.init
    = (Frame.init, Raises WebDriverException) /\
  snd (fetch_new_tokens jwt_decode Fixture.no_browser)
    = Raises UnboundLocalError /\
  snd (fetch_new_tokens jwt_decode Fixture.no_browser)
    <> Returns (None, None).
Proof. repeat split. discriminate. Qed.

(** C8: on the same path, and when the driver binary cannot be installed,
    [driver.quit()] is never called. *)
Theorem C8_no_quit_without_driver (jwt_decode : string -> option payload) :
  Frame.quit_calls (fst (fetch_new_tokens jwt_decode Fixture.no_browser)) = O /\
  Frame.quit_calls (fst (fetch_new_tokens jwt_decode Fixture.no_chromedriver)) = O /\
  snd (fetch_new_tokens jwt_decode Fixture.no_chromedriver)
    = Raises UnboundLocalError.
Proof. repeat split. Qed.

(** ** Strings *)

Lemma split_space_no_space (s : string) :
  Py.contains " " s = false -> Py.split_space s = [s].
Proof.
  induction s as [|c s IH]; cbn [Py.contains Py.split_space]; intros H.
  - reflexivity.
  - apply orb_false_iff in H. destruct H as [H1 H2].
    destruct (Ascii.eqb_spec c " "%char) as [E|E].
    + subst c. cbn in H1. destruct s; discriminate H1.
    + rewrite (IH H2). reflexivity.
Qed.

Lemma split_space_bearer (tok : string) :
  Py.contains " " tok = false ->
  Py.split_space ("Bearer " ++ tok) = ["Bearer"; tok].
Proof. intros H. cbn. rewrite (split_space_no_space tok H). reflexivity. Qed.

Lemma contains_bearer (tok : string) :
  Py.contains "Bearer" ("Bearer " ++ tok) = true.
Proof. reflexivity. Qed.

Lemma length_two {A : Type} (l : list A) (d : A) :
  (length l =? 2)%nat = true -> exists a, l = [a; nth 1 l d].
Proof.
  destruct l as [|a [|b [|c l]]]; cbn; try discriminate.
  intros _. exists a. reflexivity.
Qed.

Lemma in_skipn {A : Type} (x : A) (n : nat) (l : list A) :
  In x (skipn n l) -> In x l.
Proof.
  revert l. induction n as [|n IH]; intros l H.
  - exact H.
  - destruct l as [|y l]; cbn in H.
    + contradiction.
    + right. apply IH. exact H.
Qed.

(** ** What the loop bodies do with a request *)

Section Bodies.

Variable jwt_decode : string -> option payload.

Lemma teams_body_continue r s s' :
  teams_body jwt_decode r s = Continue s' ->
  s' = s \/ exists t, s' = Some t /\ extracted r t.
Proof.
  unfold teams_body.
  destruct (headers_get (headers r) "Authorization") as [h|] eqn:Hh.
  2:{ intros H. inversion H. auto. }
  destruct (String.eqb h EmptyString). { intros H. inversion H. auto. }
  destruct (Py.contains "Bearer" h) eqn:Hc; cbn [negb].
  2:{ intros H. inversion H. auto. }
  destruct (length (Py.split_space h) =? 2)%nat eqn:Hn; cbn [negb].
  2:{ intros H. inversion H. auto. }
  destruct (length_two _ EmptyString Hn) as [a Ha].
  assert (Hx : extracted r (nth 1 (Py.split_space h) EmptyString)).
  { exists h, a. auto. }
  destruct (jwt_decode _) as [p|].
  - destruct (payload_get p "aud") as [v|]; [|discriminate].
    destruct (value_eq_str v teams_audience); [discriminate|].
    intros H. inversion H. right. eauto.
  - intros H. inversion H. right. eauto.
Qed.

(** The first scan stops only at a token whose payload decodes and names
    the Teams audience. *)
Lemma teams_body_break r s s' :
  teams_body jwt_decode r s = Break s' ->
  exists t p, s' = Some t /\ extracted r t /\
    jwt_decode t = Some p /\
    payload_get p "aud" = Some (VStr teams_audience).
Proof.
  unfold teams_body.
  destruct (headers_get (headers r) "Authorization") as [h|] eqn:Hh.
  2:{ discriminate. }
  destruct (String.eqb h EmptyString). { discriminate. }
  destruct (Py.contains "Bearer" h) eqn:Hc; cbn [negb].
  2:{ discriminate. }
  destruct (length (Py.split_space h) =? 2)%nat eqn:Hn; cbn [negb].
  2:{ discriminate. }
  destruct (length_two _ EmptyString Hn) as [a Ha].
  destruct (jwt_decode _) as [p|] eqn:Hd; [|discriminate].
  destruct (payload_get p "aud") as [v|] eqn:Hv; [|discriminate].
  destruct (value_eq_str v teams_audience) eqn:Ha'; [|discriminate].
  intros H. inversion H.
  exists (nth 1 (Py.split_space h) EmptyString), p. repeat split; auto.
  - exists h, a. auto.
  - destruct v as [x| |]; cbn in Ha'; try discriminate.
    apply String.eqb_eq in Ha'. subst x. exact Hv.
Qed.

Lemma loki_body_continue r s s' : loki_body r s = Continue s' -> s' = s.
Proof.
  unfold loki_body.
  destruct (negb (Py.endswith (url r) loki_suffix)).
  { intros H. inversion H. auto. }
  destruct (headers_get (headers r) "Authorization") as [h|] eqn:Hh.
  2:{ intros H. inversion H. auto. }
  destruct (String.eqb h EmptyString). { intros H. inversion H. auto. }
  destruct (negb (Py.contains "Bearer" h)).
  { intros H. inversion H. auto. }
  destruct (negb _); [|discriminate].
  intros H. inversion H. auto.
Qed.

Lemma loki_body_break r s s' :
  loki_body r s = Break s' ->
  Py.endswith (url r) loki_suffix = true /\
  exists t, s' = Some t /\ extracted r t.
Proof.
  unfold loki_body.
  destruct (Py.endswith (url r) loki_suffix); cbn [negb]; [|discriminate].
  destruct (headers_get (headers r) "Authorization") as [h|] eqn:Hh.
  2:{ discriminate. }
  destruct (String.eqb h EmptyString). { discriminate. }
  destruct (Py.contains "Bearer" h) eqn:Hc; cbn [negb].
  2:{ discriminate. }
  destruct (length (Py.split_space h) =? 2)%nat eqn:Hn; cbn [negb].
  2:{ discriminate. }
  destruct (length_two _ EmptyString Hn) as [a Ha].
  intros H. inversion H. split; [reflexivity|].
  exists (nth 1 (Py.split_space h) EmptyString). split; [reflexivity|].
  exists h, a. auto.
Qed.

(** A header without [Bearer] makes both bodies move on. *)
Lemma bodies_skip_without_bearer r h :
  headers_get (headers r) "Authorization" = Some h ->
  Py.contains "Bearer" h = false ->
  (forall s, teams_body jwt_decode r s = Continue s) /\
  (forall s, loki_body r s = Continue s).
Proof.
  intros Hh Hc. split; intros s.
  - unfold teams_body. rewrite Hh, Hc. destruct (String.eqb h EmptyString); reflexivity.
  - unfold loki_body. rewrite Hh, Hc.
    destruct (negb (Py.endswith (url r) loki_suffix)); [reflexivity|].
    destruct (String.eqb h EmptyString); reflexivity.
Qed.

End Bodies.

(** ** The polling loop *)

Section Loop.

Context {St : Type}.
Variable body : request -> St -> ctl St.
Variable start : Z.

Lemma scan_while_found (ps : list poll) (st : scan_state St) :
  found st = true -> scan_while body start ps st = ([], Returns st).
Proof. intros H. destruct ps; cbn [scan_while]; rewrite H; reflexivity. Qed.

(** The equation of one iteration that starts before the deadline. *)
Lemma scan_while_poll (p : poll) (ps : list poll) (st : scan_state St) :
  found st = false ->
  p_now p - start < scan_deadline ->
  scan_while body start (p :: ps) st =
  let '(c, n) := for_requests body
                   (skipn (last_checked_index st) (p_requests p)) (token st) in
  let r := {| from_index := last_checked_index st; visited := n |} in
  let next := length (p_requests_after p) in
  match c with
  | Throw e => ([r], Raises e)
  | Break t =>
      with_record r (scan_while body start ps
        {| token := t; found := true; last_checked_index := next |})
  | Continue t =>
      with_record r (scan_while body start ps
        {| token := t; found := false; last_checked_index := next |})
  end.
Proof.
  intros Hf Ht. cbn [scan_while]. rewrite Hf.
  apply Z.ltb_lt in Ht. rewrite Ht. reflexivity.
Qed.

(** The equation of the iteration that finds the deadline passed. *)
Lemma scan_while_deadline (p : poll) (ps : list poll) (st : scan_state St) :
  scan_deadline <= p_now p - start ->
  scan_while body start (p :: ps) st = ([], Returns st).
Proof.
  intros Ht. cbn [scan_while]. destruct (found st); [reflexivity|].
  apply Z.ltb_ge in Ht. rewrite Ht. reflexivity.
Qed.

Lemma for_requests_break (rs : list request) (s t : St) :
  fst (for_requests body rs s) = Break t ->
  exists r s', In r rs /\ body r s' = Break t.
Proof.
  revert s. induction rs as [|r rs IH]; intros s; cbn.
  - discriminate.
  - destruct (body r s) as [s'|s'|e] eqn:E.
    + specialize (IH s'). destruct (for_requests body rs s') as [c n].
      cbn in *. intros H. destruct (IH H) as (r' & s'' & Hin & Hb).
      exists r', s''. auto.
    + cbn. intros H. inversion H. subst. exists r, s. auto.
    + discriminate.
Qed.

Lemma for_requests_all_continue (rs : list request) (s : St) :
  (forall r, In r rs -> forall s, body r s = Continue s) ->
  for_requests body rs s = (Continue s, length rs).
Proof.
  induction rs as [|r rs IH]; intros H; cbn.
  - reflexivity.
  - rewrite (H r (or_introl eq_refl)). rewrite IH; [reflexivity|].
    intros r' Hr'. apply H. right. exact Hr'.
Qed.

(** The loop visits at most the requests of the slice. *)
Lemma for_requests_visited (rs : list request) (s : St) :
  (snd (for_requests body rs s) <= length rs)%nat.
Proof.
  revert s. induction rs as [|r rs IH]; intros s; cbn.
  - lia.
  - destruct (body r s) as [s'|s'|e]; cbn; try lia.
    specialize (IH s'). destruct (for_requests body rs s') as [c n].
    cbn in *. lia.
Qed.

(** A scan that ends with [found] set stopped at a [break] of its body, on
    a request of the log, in an iteration that began before the
    deadline. *)
Lemma scan_while_found_sound (ps : list poll) (st0 st : scan_state St) :
  found st0 = false ->
  snd (scan_while body start ps st0) = Returns st ->
  found st = true ->
  exists p r s,
    In p ps /\ In r (p_requests p) /\ p_now p - start < scan_deadline /\
    body r s = Break (token st).
Proof.
  revert st0. induction ps as [|p ps IH]; intros st0 H0 H Hf.
  - cbn in H. rewrite H0 in H. discriminate.
  - destruct (Z.lt_ge_cases (p_now p - start) scan_deadline) as [Ht|Ht].
    + rewrite (scan_while_poll p ps st0 H0 Ht) in H.
      destruct (for_requests body _ (token st0)) as [c n] eqn:E.
      destruct c as [t|t|e]; cbn [with_record snd fst] in H.
      * apply IH in H; [|reflexivity|exact Hf].
        destruct H as (p' & r & s & Hp & Hr & Hd & Hb).
        exists p', r, s. split; [right; exact Hp|]. auto.
      * rewrite scan_while_found in H by reflexivity. cbn in H.
        inversion H. subst st. cbn.
        assert (E' : fst (for_requests body
                   (skipn (last_checked_index st0) (p_requests p)) (token st0))
                   = Break t) by (rewrite E; reflexivity).
        destruct (for_requests_break _ _ _ E') as (r & s & Hr & Hb).
        exists p, r, s. split; [left; reflexivity|].
        split; [eapply in_skipn; exact Hr|]. split; [exact Ht | exact Hb].
      * discriminate.
    + rewrite (scan_while_deadline p ps st0 Ht) in H. cbn in H.
      inversion H. subst. congruence.
Qed.

(** A scan none of whose requests changes the state ends as it began,
    if it ends. *)
Lemma scan_while_quiet (ps : list poll) (st0 : scan_state St) :
  (forall p r, In p ps -> In r (p_requests p) ->
     forall s, body r s = Continue s) ->
  found st0 = false ->
  snd (scan_while body start ps st0) = Unfinished \/
  exists st, snd (scan_while body start ps st0) = Returns st /\
    token st = token st0 /\ found st = false.
Proof.
  revert st0. induction ps as [|p ps IH]; intros st0 Hq H0.
  - left. cbn. rewrite H0. reflexivity.
  - destruct (Z.lt_ge_cases (p_now p - start) scan_deadline) as [Ht|Ht].
    + rewrite (scan_while_poll p ps st0 H0 Ht).
      rewrite for_requests_all_continue.
      * cbn [with_record snd fst].
        apply (IH {| token := token st0; found := false;
                     last_checked_index := length (p_requests_after p) |});
          [|reflexivity].
        intros p' r Hp Hr. apply (Hq p' r); [right; exact Hp | exact Hr].
      * intros r Hr. apply (Hq p r); [left; reflexivity|].
        eapply in_skipn. exact Hr.
    + right. rewrite (scan_while_deadline p ps st0 Ht). cbn.
      exists st0. auto.
Qed.

(** A script in which the clock reaches the deadline is long enough. *)
Lemma scan_while_finishes (ps : list poll) (st : scan_state St) :
  (exists p, In p ps /\ scan_deadline <= p_now p - start) ->
  snd (scan_while body start ps st) <> Unfinished.
Proof.
  revert st. induction ps as [|p ps IH]; intros st [q [Hq Hd]].
  - contradiction.
  - destruct (found st) eqn:Hf.
    { rewrite scan_while_found by exact Hf. discriminate. }
    destruct (Z.lt_ge_cases (p_now p - start) scan_deadline) as [Ht|Ht].
    + rewrite (scan_while_poll p ps st Hf Ht).
      destruct (for_requests body _ (token st)) as [c n].
      destruct Hq as [Hq|Hq]; [subst q; lia|].
      destruct c as [t|t|e]; cbn [with_record snd fst].
      * apply IH. eauto.
      * apply IH. eauto.
      * discriminate.
    + rewrite (scan_while_deadline p ps st Ht). discriminate.
Qed.

End Loop.

(** ** C2: what the first scan ends with *)

(** When the first scan ends with [found] set, its token came from a
    header that passed the guards, decodes, and names the Teams
    audience. *)
Lemma teams_scan_found_sound (jwt_decode : string -> option payload)
    (script : scan_script) (t0 : option string)
    (st : scan_state (option string)) :
  snd (teams_scan jwt_decode script t0) = Returns st ->
  found st = true ->
  exists p r t pl,
    In p (polls script) /\ In r (p_requests p) /\
    token st = Some t /\ extracted r t /\
    jwt_decode t = Some pl /\
    payload_get pl "aud" = Some (VStr teams_audience).
Proof.
  intros H Hf. unfold teams_scan in H.
  destruct (scan_while_found_sound (teams_body jwt_decode) (start_time script)
              (polls script) (scan_init t0) st eq_refl H Hf)
    as (p & r & s & Hp & Hr & _ & Hb).
  destruct (teams_body_break _ _ _ _ Hb) as (t & pl & Ht & Hx & Hd & Ha).
  exists p, r, t, pl. auto 10.
Qed.

(** C2: the log holds one request, with a bearer token for another
    audience, and the deadline passes.  The scan ends with [found] unset
    but with that token in [auth_token], and [fetch_new_tokens] returns it
    as the Teams token.  The same happens with a token that does not
    decode. *)
Theorem C2_rejected_token_is_returned :
  let graph := Fixture.req "https://graph.microsoft.com/v1.0/me" "Bearer G" in
  let junk := Fixture.req "https://example.com/" "Bearer not-a-jwt" in
  (exists p, Fixture.jwt "G" = Some p /\
     payload_get p "aud" = Some (VStr "https://graph.microsoft.com")) /\
  Fixture.jwt "not-a-jwt" = None /\
  snd (teams_scan Fixture.jwt (Fixture.log [graph]) None)
    = Returns {| token := Some "G"; found := false;
                 last_checked_index := 1 |} /\
  snd (fetch_new_tokens Fixture.jwt (Fixture.session [graph] []))
    = Returns (Some "G", None) /\
  snd (fetch_new_tokens Fixture.jwt (Fixture.session [junk] []))
    = Returns (Some "not-a-jwt", None).
Proof.
  cbv zeta. split; [eexists; split; reflexivity|].
  repeat split; reflexivity.
Qed.

(** ** C4: the guards on the [Authorization] header *)

(** C4, as stated, fails: both scans take a token from a header that does
    not start with [Bearer]. *)
Lemma C4_token_from_header_not_starting_with_bearer :
  let r1 := Fixture.req "https://loki.delve.office.com" "Basic Bearer" in
  let r2 := Fixture.req "https://teams.microsoft.com/api" "MSBearer X" in
  Py.startswith "Basic Bearer" "Bearer" = false /\
  snd (loki_scan (Fixture.log [r1]) None)
    = Returns {| token := Some "Bearer"; found := true;
                 last_checked_index := 1 |} /\
  Py.startswith "MSBearer X" "Bearer" = false /\
  snd (teams_scan Fixture.jwt (Fixture.log [r2]) None)
    = Returns {| token := Some "X"; found := true;
                 last_checked_index := 1 |}.
Proof. repeat split; reflexivity. Qed.

Lemma unguarded_skipped jwt_decode (r : request) :
  passes_guards r = false ->
  forall s, teams_body jwt_decode r s = Continue s.
Proof.
  unfold passes_guards, teams_body. intros H s.
  destruct (headers_get (headers r) "Authorization") as [h|]; [|reflexivity].
  destruct (String.eqb h EmptyString); [reflexivity|].
  destruct (Py.contains "Bearer" h); cbn [negb andb] in *; [|reflexivity].
  rewrite H. reflexivity.
Qed.

Lemma unmatched_skipped (r : request) :
  loki_matches r = false -> forall s, loki_body r s = Continue s.
Proof.
  unfold loki_matches, passes_guards, loki_body. intros H s.
  destruct (Py.endswith (url r) loki_suffix); cbn [negb andb] in *;
    [|reflexivity].
  destruct (headers_get (headers r) "Authorization") as [h|]; [|reflexivity].
  destruct (String.eqb h EmptyString); [reflexivity|].
  destruct (Py.contains "Bearer" h); cbn [negb andb] in *; [|reflexivity].
  rewrite H. reflexivity.
Qed.

(** C4 (amended): in either scan a token is taken from a request only if
    its [Authorization] header contains [Bearer] and splits at single
    spaces into exactly two parts, the token being the second.  A request
    whose header does not contain [Bearer] is skipped and the loop goes on.
    When the clock reaches the deadline, the second scan ends with the
    token absent if no request of the log matches (URL test and the two
    guards), and the first scan ends with the token absent if no request of
    the log has a header that passes the two guards. *)
Theorem C4_bearer_guards (jwt_decode : string -> option payload) :
  (forall r s s',
     teams_body jwt_decode r s = Continue s' \/
     teams_body jwt_decode r s = Break s' ->
     s' = s \/ exists t, s' = Some t /\ extracted r t) /\
  (forall r s s',
     loki_body r s = Continue s' \/ loki_body r s = Break s' ->
     s' = s \/ exists t, s' = Some t /\ extracted r t) /\
  (forall r h,
     headers_get (headers r) "Authorization" = Some h ->
     Py.contains "Bearer" h = false ->
     (forall s, teams_body jwt_decode r s = Continue s) /\
     (forall s, loki_body r s = Continue s)) /\
  (forall script,
     (exists p, In p (polls script) /\
        scan_deadline <= p_now p - start_time script) ->
     ((forall p r, In p (polls script) -> In r (p_requests p) ->
         passes_guards r = false) ->
      exists st, snd (teams_scan jwt_decode script None) = Returns st /\
        token st = None /\ found st = false) /\
     ((forall p r, In p (polls script) -> In r (p_requests p) ->
         loki_matches r = false) ->
      exists st, snd (loki_scan script None) = Returns st /\
        token st = None /\ found st = false)).
Proof.
  split; [|split; [|split]].
  - intros r s s' [H|H].
    + apply (teams_body_continue jwt_decode r s s' H).
    + destruct (teams_body_break jwt_decode r s s' H) as (t & p & Ht & Hx & _).
      right. eauto.
  - intros r s s' [H|H].
    + left. apply (loki_body_continue r s s' H).
    + destruct (loki_body_break r s s' H) as (_ & t & Ht & Hx).
      right. eauto.
  - apply bodies_skip_without_bearer.
  - intros script Hd. split; intros Hq.
    + unfold teams_scan.
      pose proof (scan_while_finishes (teams_body jwt_decode)
        (start_time script) (polls script) (scan_init None) Hd) as Hfin.
      destruct (scan_while_quiet (teams_body jwt_decode) (start_time script)
                  (polls script) (scan_init None)) as [H|H];
        [ | reflexivity | contradiction | exact H ].
      intros p r Hp Hr.
      apply (unguarded_skipped jwt_decode r (Hq p r Hp Hr)).
    + unfold loki_scan.
      pose proof (scan_while_finishes loki_body
        (start_time script) (polls script) (scan_init None) Hd) as Hfin.
      destruct (scan_while_quiet loki_body (start_time script)
                  (polls script) (scan_init None)) as [H|H];
        [ | reflexivity | contradiction | exact H ].
      intros p r Hp Hr.
      apply (unmatched_skipped r (Hq p r Hp Hr)).
Qed.

(** A header without [Bearer] is skipped by both loops; a log with a
    bearer token for a host that is not the Loki host leaves the second
    scan without a token. *)
Lemma C4_bearer_guards_witness :
  let r := Fixture.req "https://teams.microsoft.com/api" "Basic dXNlcg==" in
  headers_get (headers r) "Authorization" = Some "Basic dXNlcg==" /\
  Py.contains "Bearer" "Basic dXNlcg==" = false /\
  ((forall s, teams_body Fixture.jwt r s = Continue s) /\
   (forall s, loki_body r s = Continue s)) /\
  (exists st, snd (teams_scan Fixture.jwt (Fixture.log [r]) None) = Returns st /\
     token st = None /\ found st = false) /\
  loki_matches Fixture.teams_request = false /\
  (exists st,
     snd (loki_scan (Fixture.log [r; Fixture.teams_request]) None)
       = Returns st /\
     token st = None /\ found st = false).
Proof.
  intros r.
  destruct (C4_bearer_guards Fixture.jwt) as (_ & _ & H3 & H4).
  split; [reflexivity|]. split; [reflexivity|].
  split; [apply (H3 r "Basic dXNlcg=="); reflexivity|].
  assert (Hd : forall rs, exists p, In p (polls (Fixture.log rs)) /\
            scan_deadline <= p_now p - start_time (Fixture.log rs)).
  { intros rs.
    exists {| p_now := seconds 31; p_requests := rs; p_requests_after := rs |}.
    split; [right; left; reflexivity|]. cbv. discriminate. }
  split; [|split; [reflexivity|]].
  - apply (proj1 (H4 (Fixture.log [r]) (Hd [r]))).
    intros p q Hp Hq.
    destruct Hp as [Hp|[Hp|[]]]; subst p; destruct Hq as [Hq|[]]; subst q;
      reflexivity.
  - apply (proj2 (H4 (Fixture.log [r; Fixture.teams_request])
                    (Hd [r; Fixture.teams_request]))).
    intros p q Hp Hq.
    destruct Hp as [Hp|[Hp|[]]]; subst p; destruct Hq as [Hq|[Hq|[]]];
      subst q; reflexivity.
Defined.

(** ** C5: what the second scan matches *)

(** C5, as stated, fails: the host of the request ends with the suffix
    and the request carries [Authorization: Bearer Y], but its URL has a
    path, so the test on the URL skips it and the scan ends at the
    deadline with no token. *)
Lemma C5_host_suffix_with_path_is_skipped :
  let r := Fixture.req "https://sub.loki.delve.office.com/api/v1/profile"
             "Bearer Y" in
  Spec.destination_host r = "sub.loki.delve.office.com" /\
  Py.endswith (Spec.destination_host r) loki_suffix = true /\
  headers_get (headers r) "Authorization" = Some "Bearer Y" /\
  snd (loki_scan (Fixture.log [r]) None)
    = Returns {| token := None; found := false; last_checked_index := 1 |}.
Proof. repeat split; reflexivity. Qed.

Lemma for_requests_first_break {St : Type} (body : request -> St -> ctl St)
    (before after : list request) (r : request) (s t : St) :
  (forall r', In r' before -> forall s, body r' s = Continue s) ->
  body r s = Break t ->
  for_requests body (before ++ r :: after)%list s = (Break t, S (length before)).
Proof.
  intros Hq Hb. induction before as [|r0 before IH]; cbn.
  - rewrite Hb. reflexivity.
  - rewrite (Hq r0 (or_introl eq_refl)). rewrite IH; [reflexivity|].
    intros r' Hr'. apply Hq. right. exact Hr'.
Qed.

Lemma loki_body_match (r : request) (tok : string) (s : option string) :
  Py.endswith (url r) loki_suffix = true ->
  headers_get (headers r) "Authorization" = Some ("Bearer " ++ tok) ->
  Py.contains " " tok = false ->
  loki_body r s = Break (Some tok).
Proof.
  intros Hu Hh Hs. unfold loki_body. rewrite Hu, Hh. cbn [negb].
  rewrite (contains_bearer tok), (split_space_bearer tok Hs). reflexivity.
Qed.

(** Polls before the deadline whose slices hold nothing that stops the
    loop only move the cursor. *)
Lemma scan_while_quiet_polls {St : Type} (body : request -> St -> ctl St)
    (start : Z) (earlier rest : list poll) (t : St) (c : nat) :
  (forall q, In q earlier -> p_now q - start < scan_deadline) ->
  (forall r, In r (slices c earlier) -> forall s, body r s = Continue s) ->
  snd (scan_while body start (earlier ++ rest)%list
         {| token := t; found := false; last_checked_index := c |})
  = snd (scan_while body start rest
           {| token := t; found := false;
              last_checked_index := cursor_after c earlier |}).
Proof.
  revert c. induction earlier as [|q earlier IH]; intros c Hd Hq.
  - reflexivity.
  - cbn [app].
    rewrite (scan_while_poll body start q (earlier ++ rest)%list
               {| token := t; found := false; last_checked_index := c |}
               eq_refl (Hd q (or_introl eq_refl))).
    cbn [token last_checked_index].
    rewrite for_requests_all_continue.
    + cbn [with_record snd]. unfold cursor_after. cbn [fold_left].
      apply IH.
      * intros q' Hq'. apply Hd. right. exact Hq'.
      * intros r Hr. apply Hq. cbn [slices]. apply in_or_app. right. exact Hr.
    + intros r Hr. apply Hq. cbn [slices]. apply in_or_app. left. exact Hr.
Qed.

(** C5 (amended): a request whose URL string ends with
    [loki.delve.office.com] and which carries [Authorization: Bearer tok]
    is matched by the second scan, which returns [tok], when the scan
    visits it: the request is in the slice of a poll that, like the polls
    before it, is taken before the deadline, and none of the requests
    visited before it, in the earlier polls or in that slice, matches. *)
Theorem C5_url_suffix_is_matched (script : scan_script)
    (earlier : list poll) (p : poll) (later : list poll)
    (before after : list request) (r : request)
    (tok : string) (initial : option string) :
  polls script = (earlier ++ p :: later)%list ->
  (forall q, In q earlier -> p_now q - start_time script < scan_deadline) ->
  p_now p - start_time script < scan_deadline ->
  (forall r', In r' (slices 0 earlier) -> loki_matches r' = false) ->
  skipn (cursor_after 0 earlier) (p_requests p) = (before ++ r :: after)%list ->
  (forall r', In r' before -> loki_matches r' = false) ->
  Py.endswith (url r) loki_suffix = true ->
  headers_get (headers r) "Authorization" = Some ("Bearer " ++ tok) ->
  Py.contains " " tok = false ->
  snd (loki_scan script initial) =
  Returns {| token := Some tok; found := true;
             last_checked_index := length (p_requests_after p) |}.
Proof.
  intros Hp He Ht Hs Hl Hq Hu Hh Hn. unfold loki_scan, scan_init. rewrite Hp.
  rewrite (scan_while_quiet_polls loki_body (start_time script) earlier
             (p :: later) initial 0 He).
  2:{ intros r' Hr'. apply unmatched_skipped. apply Hs. exact Hr'. }
  rewrite (scan_while_poll loki_body (start_time script) p later
             {| token := initial; found := false;
                last_checked_index := cursor_after 0 earlier |}
             eq_refl Ht).
  cbn [last_checked_index token]. rewrite Hl.
  rewrite (for_requests_first_break loki_body before after r initial
             (Some tok)).
  - rewrite scan_while_found by reflexivity. reflexivity.
  - intros r' Hr'. apply unmatched_skipped. apply Hq. exact Hr'.
  - apply (loki_body_match r tok initial Hu Hh Hn).
Qed.

(** The Loki request arrives between the first poll and the second. *)
Lemma C5_url_suffix_is_matched_witness :
  let other := Fixture.req "https://teams.microsoft.com/api" "Bearer X" in
  let r := Fixture.req "https://sub.loki.delve.office.com" "Bearer Y" in
  let p1 := {| p_now := 0; p_requests := [other];
               p_requests_after := [other] |} in
  let p2 := {| p_now := 100000; p_requests := [other; r];
               p_requests_after := [other; r] |} in
  Py.endswith (url r) loki_suffix = true /\
  loki_matches other = false /\
  snd (loki_scan {| start_time := 0; polls := [p1; p2] |} None)
    = Returns {| token := Some "Y"; found := true; last_checked_index := 2 |}.
Proof.
  intros other r p1 p2. split; [reflexivity|]. split; [reflexivity|].
  apply (C5_url_suffix_is_matched {| start_time := 0; polls := [p1; p2] |}
           [p1] p2 [] [] [] r "Y" None); try reflexivity.
  - intros q [Hq|[]]. subst q. reflexivity.
  - intros r' [Hr|[]]. subst r'. reflexivity.
  - intros r' [].
Defined.

(** ** C9: the cursor *)

Lemma extends_length {A : Type} (a b : list A) :
  extends a b -> (length a <= length b)%nat.
Proof. intros [c ->]. rewrite length_app. lia. Qed.

Lemma chained_weaken (c c' : nat) (tr : list poll_record) :
  (c' <= c)%nat -> chained c tr -> chained c' tr.
Proof. destruct tr as [|r tr]; cbn; [auto|]. intros H [H1 H2]. split; [lia|auto]. Qed.

Lemma chained_with_record {A : Type} (c : nat) (r : poll_record)
    (x : list poll_record * A) :
  (c <= from_index r)%nat -> chained (from_index r + visited r) (fst x) ->
  chained c (fst (with_record r x)).
Proof. intros H1 H2. cbn. auto. Qed.

Lemma scan_while_chained {St : Type} (body : request -> St -> ctl St)
    (start : Z) (ps : list poll) (st : scan_state St) (seen : list request) :
  append_only seen ps ->
  (last_checked_index st <= length seen)%nat ->
  chained (last_checked_index st) (fst (scan_while body start ps st)).
Proof.
  revert st seen. induction ps as [|p ps IH]; intros st seen Ha Hc.
  - cbn. destruct (found st); exact I.
  - destruct (found st) eqn:Hf.
    { rewrite scan_while_found by exact Hf. exact I. }
    destruct (Z.lt_ge_cases (p_now p - start) scan_deadline) as [Ht|Ht].
    2:{ rewrite (scan_while_deadline body start p ps st Ht). exact I. }
    rewrite (scan_while_poll body start p ps st Hf Ht).
    destruct Ha as (H1 & H2 & H3).
    apply extends_length in H1. apply extends_length in H2.
    pose proof (for_requests_visited body
      (skipn (last_checked_index st) (p_requests p)) (token st)) as Hv.
    rewrite length_skipn in Hv.
    destruct (for_requests body _ (token st)) as [c n]. cbn [snd] in Hv.
    destruct c as [t|t|e].
    + apply chained_with_record; cbn [from_index visited]; [lia|].
      apply chained_weaken with (c := length (p_requests_after p)); [lia|].
      apply (IH {| token := t; found := false;
                   last_checked_index := length (p_requests_after p) |}
                (p_requests_after p) H3). cbn. lia.
    + apply chained_with_record; cbn [from_index visited]; [lia|].
      apply chained_weaken with (c := length (p_requests_after p)); [lia|].
      apply (IH {| token := t; found := true;
                   last_checked_index := length (p_requests_after p) |}
                (p_requests_after p) H3). cbn. lia.
    + cbn. split; [lia|exact I].
Qed.

Lemma chained_lower_bound (c : nat) (tr : list poll_record) :
  chained c tr ->
  forall j rj, nth_error tr j = Some rj -> (c <= from_index rj)%nat.
Proof.
  revert c. induction tr as [|r tr IH]; intros c H j rj Hj.
  - destruct j; discriminate.
  - destruct H as [H1 H2]. destruct j as [|j]; cbn in Hj.
    + inversion Hj. subst. exact H1.
    + specialize (IH _ H2 j rj Hj). lia.
Qed.

Lemma chained_pairwise (c : nat) (tr : list poll_record) :
  chained c tr ->
  forall i j ri rj, (i < j)%nat ->
    nth_error tr i = Some ri -> nth_error tr j = Some rj ->
    (from_index ri + visited ri <= from_index rj)%nat.
Proof.
  revert c. induction tr as [|r tr IH]; intros c H i j ri rj Hij Hi Hj.
  - destruct i; discriminate.
  - destruct H as [H1 H2]. destruct j as [|j]; [lia|]. cbn in Hj.
    destruct i as [|i]; cbn in Hi.
    + inversion Hi. subst. apply (chained_lower_bound _ _ H2 j rj Hj).
    + apply (IH _ H2 i j ri rj); [lia|assumption|assumption].
Qed.

(** C9: if the captured-request log is append-only then, in the first
    scan and in the second scan, a later iteration starts at a cursor that
    is at least the cursor of an earlier one, and no index of the log is
    visited by two iterations.  In any scan, an iteration that finds no
    entry beyond the cursor visits no request and leaves the token and the
    [found] flag as they were. *)
Theorem C9_incremental_scan (jwt_decode : string -> option payload)
    (script : scan_script) (t0 : option string) :
  append_only [] (polls script) ->
  (forall tr,
     tr = fst (teams_scan jwt_decode script t0) \/
     tr = fst (loki_scan script t0) ->
     forall i j ri rj, (i < j)%nat ->
       nth_error tr i = Some ri -> nth_error tr j = Some rj ->
       (from_index ri <= from_index rj)%nat /\
       (forall k, examines ri k -> ~ examines rj k)) /\
  (forall (body : request -> option string -> ctl (option string))
          (p : poll) (ps : list poll) (st : scan_state (option string)),
     body = teams_body jwt_decode \/ body = loki_body ->
     found st = false ->
     p_now p - start_time script < scan_deadline ->
     (length (p_requests p) <= last_checked_index st)%nat ->
     scan_while body (start_time script) (p :: ps) st =
     with_record {| from_index := last_checked_index st; visited := 0 |}
       (scan_while body (start_time script) ps
          {| token := token st; found := false;
             last_checked_index := length (p_requests_after p) |})).
Proof.
  intros Ha. split.
  - intros tr Htr i j ri rj Hij Hi Hj.
    assert (Hc : chained 0 tr).
    { destruct Htr as [-> | ->].
      - apply (scan_while_chained (teams_body jwt_decode) (start_time script)
                 (polls script) (scan_init t0) [] Ha). cbn. lia.
      - apply (scan_while_chained loki_body (start_time script)
                 (polls script) (scan_init t0) [] Ha). cbn. lia. }
    pose proof (chained_pairwise 0 tr Hc i j ri rj Hij Hi Hj) as Hp.
    split; [lia|]. unfold examines. intros k H1 H2. lia.
  - intros body p ps st _ Hf Ht Hn.
    rewrite (scan_while_poll body (start_time script) p ps st Hf Ht).
    rewrite skipn_all2 by exact Hn. reflexivity.
Qed.

Lemma C9_incremental_scan_witness :
  append_only [] (polls Fixture.growing_log) /\
  fst (teams_scan Fixture.jwt Fixture.growing_log None)
    = [ {| from_index := 0; visited := 1 |};
        {| from_index := 2; visited := 1 |};
        {| from_index := 3; visited := 0 |} ] /\
  (forall k, examines {| from_index := 0; visited := 1 |} k ->
             ~ examines {| from_index := 2; visited := 1 |} k).
Proof.
  assert (Ha : append_only [] (polls Fixture.growing_log)).
  { cbn. repeat split; try (eexists; reflexivity);
      try (exists []; reflexivity). }
  split; [exact Ha|]. split; [reflexivity|].
  destruct (C9_incremental_scan Fixture.jwt Fixture.growing_log None Ha)
    as [H _].
  apply (H (fst (teams_scan Fixture.jwt Fixture.growing_log None))
           (or_introl eq_refl) 0%nat 1%nat); [lia|reflexivity|reflexivity].
Defined.

(** ** [time_til_expiration] *)

(** A stored token that decodes, with an integer [exp] that the platform
    converts: the result is the difference of two naive local dates. *)
Lemma time_til_expiration_decoded (jwt_decode : string -> option payload)
    (local_datetime : Z -> option Z)
    (now : Z) (self : Puppet) (t : string) (p : payload) (e d : Z) :
  teams_token self = Some t -> t <> EmptyString ->
  jwt_decode t = Some p ->
  payload_get p "exp" = Some (VInt e) ->
  local_datetime e = Some d ->
  time_til_expiration jwt_decode local_datetime now self = Returns (d - now).
Proof.
  unfold time_til_expiration, decode.
  intros -> Ht Hd He Hl. apply String.eqb_neq in Ht. rewrite Ht, Hd.
  cbn. rewrite He. unfold fromtimestamp. rewrite Hl. reflexivity.
Qed.

(** ** C7: [time_til_expiration] *)

(** C7, as stated, fails: the stored token is present and decodes, but its
    payload has no [exp]; [time_til_expiration] returns no duration, it
    raises [KeyError]. *)
Lemma C7_decodable_token_without_exp_raises :
  Sample.jwt "NOEXP" = Some [("aud", VStr teams_audience)] /\
  time_til_expiration Sample.jwt Fixture.utc Fixture.now
    (Fixture.puppet (Some "NOEXP") None) = Raises KeyError.
Proof. split; reflexivity. Qed.

(** C7 (amended): [time_til_expiration] returns minus one second when
    there is no Teams token and when the stored token does not decode; it
    never raises [jwt.DecodeError]; for a stored token that decodes and
    carries an integer [exp] that the platform converts, when the local
    zone has the same offset from UTC at [exp] as at the current time, it
    returns [exp] minus the current time. *)
Theorem C7_time_til_expiration (jwt_decode : string -> option payload)
    (local_datetime : Z -> option Z)
    (now : Z) (self : Puppet) :
  seconds (-1) < 0 /\
  (Py.truthy (teams_token self) = false ->
   time_til_expiration jwt_decode local_datetime now self = Returns (seconds (-1))) /\
  (forall t, teams_token self = Some t -> jwt_decode t = None ->
   time_til_expiration jwt_decode local_datetime now self = Returns (seconds (-1))) /\
  time_til_expiration jwt_decode local_datetime now self <> Raises DecodeError /\
  (forall t p e utcoffset now_utc,
     teams_token self = Some t -> t <> EmptyString ->
     jwt_decode t = Some p ->
     payload_get p "exp" = Some (VInt e) ->
     local_datetime e = Some (seconds (e + utcoffset)) ->
     now = now_utc + seconds utcoffset ->
     time_til_expiration jwt_decode local_datetime now self
     = Returns (seconds e - now_utc)).
Proof.
  split; [reflexivity|]. split; [|split; [|split]].
  4:{ intros t p e utcoffset now_utc Ht Hne Hd He Hl Hn.
      rewrite (time_til_expiration_decoded jwt_decode local_datetime now self
                 t p e _ Ht Hne Hd He Hl).
      f_equal. subst now. unfold seconds. lia. }
  all: unfold time_til_expiration, decode.
  - destruct (teams_token self) as [t|]; cbn; [|reflexivity].
    destruct (String.eqb t EmptyString); [reflexivity|discriminate].
  - intros t -> Hd. rewrite Hd. destruct (String.eqb t EmptyString); reflexivity.
  - destruct (teams_token self) as [t|]; [|discriminate].
    destruct (String.eqb t EmptyString); [discriminate|].
    destruct (jwt_decode t) as [p|]; cbn; [|discriminate].
    destruct (payload_get p "exp") as [v|]; cbn; [|discriminate].
    destruct (fromtimestamp local_datetime v) as [x|e|]; cbn;
      try discriminate.
    destruct e; cbn; discriminate.
Qed.

(** On a platform five hours behind UTC, a token that expires an hour
    after the current time. *)
Lemma C7_time_til_expiration_witness :
  let eastern := Fixture.zone (fun _ => -18000) in
  let now_utc := seconds 1700000000 in
  let now := now_utc + seconds (-18000) in
  Py.truthy (teams_token (Fixture.puppet None None)) = false /\
  time_til_expiration Fixture.jwt eastern now (Fixture.puppet None None)
    = Returns (seconds (-1)) /\
  time_til_expiration Fixture.jwt eastern now
    (Fixture.puppet (Some "not-a-jwt") None) = Returns (seconds (-1)) /\
  eastern 1700003600 = Some (seconds (1700003600 + -18000)) /\
  time_til_expiration Fixture.jwt eastern now (Fixture.puppet (Some "X") None)
    = Returns (seconds 1700003600 - now_utc).
Proof.
  intros eastern now_utc now.
  split; [reflexivity|]. split; [|split; [|split; [reflexivity|]]].
  - apply (C7_time_til_expiration Fixture.jwt eastern now
             (Fixture.puppet None None)). reflexivity.
  - apply (C7_time_til_expiration Fixture.jwt eastern now
             (Fixture.puppet (Some "not-a-jwt") None)) with (t := "not-a-jwt");
      reflexivity.
  - destruct (C7_time_til_expiration Fixture.jwt eastern now
                (Fixture.puppet (Some "X") None)) as (_ & _ & _ & _ & H).
    apply (H "X" [("aud", VStr teams_audience); ("exp", VInt 1700003600)]
             1700003600 (-18000) now_utc); try reflexivity.
    discriminate.
Defined.

(** ** C10: the freshness check and the local clock *)

(** With a stored Teams token whose local expiry date is more than five
    minutes after the local date read from the clock, the condition of the
    refresh is false. *)
Lemma refresh_not_needed (jwt_decode : string -> option payload)
    (local_datetime : Z -> option Z) (now : Z)
    (self : Puppet) (t : string) (p : payload) (e d : Z) :
  teams_token self = Some t -> t <> EmptyString ->
  jwt_decode t = Some p ->
  payload_get p "exp" = Some (VInt e) ->
  local_datetime e = Some d ->
  minutes 5 < d - now ->
  refresh_needed jwt_decode local_datetime now self = Returns false.
Proof.
  intros Ht Hne Hd He Hl Hfresh. unfold refresh_needed.
  rewrite (time_til_expiration_decoded jwt_decode local_datetime now self
             t p e d Ht Hne Hd He Hl).
  rewrite Ht. unfold Py.truthy.
  apply String.eqb_neq in Hne. rewrite Hne. cbn [negb obind].
  apply Z.leb_gt in Hfresh. rewrite Hfresh. reflexivity.
Qed.

(** The condition of the refresh reads the Teams token and the clock, not
    the Loki token.  Where the local zone has the same offset at [exp] as
    at the current time and more than five minutes remain, neither method
    logs in, and [get_token("loki")] returns the stored Loki token. *)
Lemma fresh_teams_token_no_refresh
    (jwt_decode : string -> option payload) (local_datetime : Z -> option Z)
    (now : Z) (w : attempt) (self : Puppet) (t : string) (p : payload)
    (e utcoffset now_utc : Z) :
  teams_token self = Some t -> t <> EmptyString ->
  jwt_decode t = Some p ->
  payload_get p "exp" = Some (VInt e) ->
  local_datetime e = Some (seconds (e + utcoffset)) ->
  now = now_utc + seconds utcoffset ->
  minutes 5 < seconds e - now_utc ->
  (forall other, teams_token other = teams_token self ->
     refresh_needed jwt_decode local_datetime now other
     = refresh_needed jwt_decode local_datetime now self) /\
  check_tokens jwt_decode local_datetime now w self
    = {| self_after := self; returned := Returns tt; fetch_calls := 0 |} /\
  get_token jwt_decode local_datetime "loki" now w self
    = {| self_after := self; returned := Returns (loki_token self);
         fetch_calls := 0 |}.
Proof.
  intros Ht Hne Hd He Hl Hn Hfresh.
  assert (N : refresh_needed jwt_decode local_datetime now self
              = Returns false).
  { apply (refresh_not_needed jwt_decode local_datetime now self t p e _
             Ht Hne Hd He Hl).
    subst now. unfold seconds, minutes in *. lia. }
  split; [|split].
  - intros other Ho. unfold refresh_needed, time_til_expiration.
    rewrite Ho. reflexivity.
  - unfold check_tokens. rewrite N. reflexivity.
  - unfold get_token. rewrite N. reflexivity.
Qed.

(** C10: the stored Teams token expires at 06:30 UTC and the clock is
    read at 05:30 UTC, an hour before, on a platform whose zone goes from
    four to five hours behind UTC at 06:00 UTC.  Both instants are 01:30 on
    the local calendar, so [time_til_expiration] returns zero:
    [check_tokens] logs in, and [get_token("loki")] logs in and returns the
    new Loki token, although the token has an hour to live. *)
Theorem C10_refresh_across_clock_change :
  let self := Fixture.puppet (Some "DST") None in
  let now_utc := 1699162200 in
  let now := seconds (now_utc - 14400) in
  Sample.jwt "DST"
    = Some [("aud", VStr teams_audience); ("exp", VInt 1699165800)] /\
  Sample.new_york now_utc = Some now /\
  minutes 5 < seconds 1699165800 - seconds now_utc /\
  time_til_expiration Sample.jwt Sample.new_york now self = Returns 0 /\
  fetch_calls (check_tokens Sample.jwt Sample.new_york now
                 Fixture.good_session self) = 1%nat /\
  get_token Sample.jwt Sample.new_york "loki" now Fixture.good_session self
    = {| self_after := Fixture.puppet (Some "X") (Some "Y");
         returned := Returns (Some "Y"); fetch_calls := 1 |}.
Proof. repeat split; reflexivity. Qed.

(** ** C3: callers that run at the same time *)

(** A thread alone does what [get_token] does. *)
Lemma solo_get_token (jwt_decode : string -> option payload)
    (local_datetime : Z -> option Z)
    (service : string) (now : Z) (w : attempt) (self : Puppet) :
  let g := get_token jwt_decode local_datetime service now w self in
  let s := run jwt_decode local_datetime [0; 0; 0; 0]%nat
             {| shared := self;
                threads := [caller (GetToken service) now w] |} in
  shared s = self_after g /\
  map t_pc (threads s) = [Finished (returned g)] /\
  login_runs s = fetch_calls g.
Proof.
  unfold get_token, refresh_tokens, run, system_step, caller. cbn.
  destruct (refresh_needed jwt_decode local_datetime now self) as [[|]|e|]; cbn;
    try (repeat split; reflexivity).
  destruct (snd (fetch_new_tokens jwt_decode w)) as [tokens|e|]; cbn;
    repeat split; reflexivity.
Qed.

(** C3, as stated, fails: nothing makes the refresh single-flight.  A
    caller of [get_token] and the scheduler's [check_tokens] both find the
    Teams token missing before either has stored a new one; each then runs
    its own login. *)
Lemma C3_two_callers_two_logins :
  let s0 := {| shared := Fixture.puppet None None;
               threads := [caller (GetToken "teams") Fixture.now
                             Fixture.good_session;
                           caller CheckTokens Fixture.now
                             Fixture.good_session] |} in
  let s := run Fixture.jwt Fixture.utc [0; 1; 0; 1; 0; 1; 0; 1]%nat s0 in
  map t_needed (threads s) = [Some true; Some true] /\
  map t_pc (threads s)
    = [Finished (Returns (Some "X")); Finished (Returns None)] /\
  login_runs s = 2%nat /\
  login_runs s <> 1%nat.
Proof. repeat split; try reflexivity. cbv. discriminate. Qed.

Lemma thread_step_accounted (jwt_decode : string -> option payload)
    (local_datetime : Z -> option Z)
    (self : Puppet) (t : thread) :
  accounted t -> accounted (snd (thread_step jwt_decode local_datetime self t)).
Proof.
  unfold accounted, thread_step.
  destruct (t_pc t) eqn:Hpc; intros H.
  - destruct H as [H1 H2].
    destruct (refresh_needed jwt_decode local_datetime (t_now t) self) as [[|]|e|]; cbn;
      try rewrite H1; auto.
  - destruct H as [H1 H2].
    destruct (snd (fetch_new_tokens jwt_decode (t_attempt t))) as [x|e|]; cbn;
      rewrite H1, H2; auto.
  - destruct H as [H1 H2]. cbn. rewrite H1, H2. reflexivity.
  - cbn. exact H.
  - cbn. rewrite Hpc. exact H.
Qed.

Lemma update_nth_Forall {A : Type} (P : A -> Prop) (i : nat) (x : A)
    (l : list A) :
  Forall P l -> P x -> Forall P (update_nth i x l).
Proof.
  intros Hl Hx. revert i. induction Hl as [|y l Hy Hl IH]; intros i.
  - destruct i; constructor.
  - destruct i; cbn; constructor; auto.
Qed.

Lemma run_accounted (jwt_decode : string -> option payload)
    (local_datetime : Z -> option Z)
    (schedule : list nat) (s : system) :
  Forall accounted (threads s) ->
  Forall accounted (threads (run jwt_decode local_datetime schedule s)).
Proof.
  revert s. induction schedule as [|i rest IH]; intros s H; cbn.
  - exact H.
  - apply IH. unfold system_step.
    destruct (nth_error (threads s) i) as [t|] eqn:E; [|exact H].
    pose proof (thread_step_accounted jwt_decode local_datetime (shared s) t) as Ht.
    destruct (thread_step jwt_decode local_datetime (shared s) t) as [self t']. cbn in *.
    apply update_nth_Forall; [exact H|]. apply Ht.
    rewrite Forall_forall in H. apply H. eapply nth_error_In. exact E.
Qed.

(** C3 (amended): two callers start together, in any order of steps.  If
    both find that a refresh is needed and both finish, each has made its
    own call of [fetch_new_tokens]: two logins, not one. *)
Theorem C3_each_caller_runs_its_own_login
    (jwt_decode : string -> option payload)
    (local_datetime : Z -> option Z) (self : Puppet)
    (e1 e2 : entry) (now1 now2 : Z) (w1 w2 : attempt)
    (schedule : list nat) (t1 t2 : thread) :
  threads (run jwt_decode local_datetime schedule
             {| shared := self;
                threads := [caller e1 now1 w1; caller e2 now2 w2] |})
    = [t1; t2] ->
  is_finished t1 = true -> is_finished t2 = true ->
  t_needed t1 = Some true -> t_needed t2 = Some true ->
  t_runs t1 = 1%nat /\ t_runs t2 = 1%nat /\
  login_runs (run jwt_decode local_datetime schedule
                {| shared := self;
                   threads := [caller e1 now1 w1; caller e2 now2 w2] |})
    = 2%nat.
Proof.
  intros Hs Hf1 Hf2 Hn1 Hn2.
  pose proof (run_accounted jwt_decode local_datetime schedule
    {| shared := self; threads := [caller e1 now1 w1; caller e2 now2 w2] |})
    as H.
  rewrite Hs in H.
  assert (H0 : Forall accounted [caller e1 now1 w1; caller e2 now2 w2]).
  { repeat constructor. }
  specialize (H H0). inversion H as [|x l A1 H' E]. subst.
  inversion H' as [|x l A2 _ E]. subst.
  unfold accounted, is_finished in *.
  destruct (t_pc t1); try discriminate. destruct (t_pc t2); try discriminate.
  rewrite Hn1 in A1. rewrite Hn2 in A2.
  unfold login_runs. rewrite Hs. cbn. rewrite A1, A2. auto.
Qed.

Lemma C3_each_caller_runs_its_own_login_witness :
  let s := run Fixture.jwt Fixture.utc [0; 1; 1; 0; 0; 1; 1; 0]%nat
             {| shared := Fixture.puppet (Some "OLD") None;
                threads := [caller (GetToken "loki") Fixture.now
                              Fixture.good_session;
                            caller (GetToken "teams") Fixture.now
                              Fixture.good_session] |} in
  map t_needed (threads s) = [Some true; Some true] /\
  map is_finished (threads s) = [true; true] /\
  login_runs s = 2%nat.
Proof.
  intros s. split; [reflexivity|]. split; [reflexivity|].
  apply (C3_each_caller_runs_its_own_login Fixture.jwt Fixture.utc
           (Fixture.puppet (Some "OLD") None)
           (GetToken "loki") (GetToken "teams") Fixture.now Fixture.now
           Fixture.good_session Fixture.good_session
           [0; 1; 1; 0; 0; 1; 1; 0]%nat
           (nth 0 (threads s) (caller CheckTokens 0 Fixture.good_session))
           (nth 1 (threads s) (caller CheckTokens 0 Fixture.good_session)));
    reflexivity.
Defined.

(** * Further properties of the code *)

(** ** The inner [try] of the login *)

Lemma bind_cong {A B : Type} (m1 m2 : M A) (k1 k2 : A -> M B) (l : Frame.t) :
  m1 l = m2 l -> (forall a l', k1 a l' = k2 a l') ->
  bind m1 k1 l = bind m2 k2 l.
Proof.
  intros Hm Hk. unfold bind. rewrite Hm.
  destruct (m2 l) as [l' [a|e|]]; auto.
Qed.

Lemma stay_block_absorbed (a b c : effect) (l : Frame.t) :
  first_raised a b c = None \/ first_raised a b c = Some TimeoutException ->
  try_except (step a ;; step b ;; step c) [(is_timeout, ret tt)] l
  = (l, Returns tt).
Proof.
  destruct a as [x|]; [|destruct b as [x|]; [|destruct c as [x|]]];
    cbn; intros [H|H]; try discriminate; try reflexivity;
    inversion H; reflexivity.
Qed.

(** X1: a [TimeoutException] anywhere in the stay-signed-in block is
    absorbed: the call of [fetch_new_tokens] ends exactly as it does when
    the three interactions of the block return. *)
Theorem X1_stay_signed_in_timeout_is_absorbed
    (jwt_decode : string -> option payload) (w : attempt) (a b c : effect) :
  first_raised a b c = None \/ first_raised a b c = Some TimeoutException ->
  fetch_new_tokens jwt_decode (set_stay_signed_in a b c w)
  = fetch_new_tokens jwt_decode (set_stay_signed_in None None None w).
Proof.
  intros H.
  assert (E : forall l,
    login jwt_decode (set_stay_signed_in a b c w) l
    = login jwt_decode (set_stay_signed_in None None None w) l).
  { intros l. unfold login, set_stay_signed_in.
    cbn [chromedriver_install chrome get_teams email_input_wait
         email_input_send_keys next_button_wait next_button_click
         password_input_wait password_input_send_keys sign_in_button_wait
         sign_in_button_click stay_signed_in_wait yes_button_wait
         yes_button_click teams_requests profile_button_wait
         profile_button_click view_button_wait view_button_click
         loki_requests].
    repeat (apply bind_cong; [reflexivity | intros _ ?]).
    apply bind_cong; [|reflexivity].
    rewrite (stay_block_absorbed a b c _ H).
    rewrite (stay_block_absorbed None None None); [reflexivity|].
    left. reflexivity. }
  unfold fetch_new_tokens, bind, try_finally, try_except.
  rewrite E. reflexivity.
Qed.

Lemma X1_stay_signed_in_timeout_is_absorbed_witness :
  first_raised None (Some TimeoutException) None = Some TimeoutException /\
  fetch_new_tokens Fixture.jwt
    (set_stay_signed_in None (Some TimeoutException) None Fixture.good_session)
  = fetch_new_tokens Fixture.jwt
      (set_stay_signed_in None None None Fixture.good_session).
Proof.
  split; [reflexivity|].
  apply (X1_stay_signed_in_timeout_is_absorbed Fixture.jwt
           Fixture.good_session None (Some TimeoutException) None).
  right. reflexivity.
Defined.

(** When the credentials were entered, the [try] block reaches the inner
    [try] with the driver bound and nothing else changed. *)
Lemma login_after_credentials (jwt_decode : string -> option payload)
    (w : attempt) (e : exn) :
  credentials_entered w ->
  stay_signed_in_raised w = Some e ->
  e <> TimeoutException ->
  login jwt_decode w Frame.init = (Frame.bind_driver Frame.init, Raises e).
Proof.
  intros (H1 & H2 & H3 & H4 & H5 & H6 & H7 & H8 & H9 & H10 & H11) Hs He.
  unfold login, bind.
  rewrite H1, H2, H3, H4, H5, H6, H7, H8, H9, H10, H11.
  cbn [step new_driver].
  unfold stay_signed_in_raised, first_raised in Hs.
  unfold try_except, bind.
  destruct (stay_signed_in_wait w) as [x|].
  - inversion Hs. subst x. cbn. destruct e; try reflexivity. congruence.
  - destruct (yes_button_wait w) as [x|].
    + inversion Hs. subst x. cbn. destruct e; try reflexivity. congruence.
    + rewrite Hs. cbn. destruct e; try reflexivity. congruence.
Qed.

(** X2: the inner [try] absorbs nothing but [TimeoutException].  Any other
    exception of the stay-signed-in block ends the attempt: a selenium
    exception gives [(None, None)], any other exception leaves
    [fetch_new_tokens]; the driver is quit once in both cases. *)
Theorem X2_stay_signed_in_other_exception_is_fatal
    (jwt_decode : string -> option payload) (w : attempt) (e : exn) :
  credentials_entered w ->
  stay_signed_in_raised w = Some e ->
  e <> TimeoutException ->
  snd (fetch_new_tokens jwt_decode w)
  = (if is_webdriver_exception e then Returns (None, None) else Raises e) /\
  Frame.quit_calls (fst (fetch_new_tokens jwt_decode w)) = 1%nat.
Proof.
  intros Hc Hs He.
  pose proof (login_after_credentials jwt_decode w e Hc Hs He) as Hl.
  destruct (is_webdriver_exception e) eqn:Hw.
  - rewrite (fetch_after_webdriver_exception jwt_decode w _ e Hl Hw eq_refl).
    split; reflexivity.
  - rewrite (fetch_after_other_exception jwt_decode w _ e Hl Hw eq_refl).
    split; reflexivity.
Qed.

Lemma X2_stay_signed_in_other_exception_is_fatal_witness :
  let w := set_stay_signed_in None None (Some WebDriverException)
             Fixture.good_session in
  credentials_entered w /\
  stay_signed_in_raised w = Some WebDriverException /\
  snd (fetch_new_tokens Fixture.jwt w) = Returns (None, None) /\
  Frame.quit_calls (fst (fetch_new_tokens Fixture.jwt w)) = 1%nat.
Proof.
  intros w.
  assert (Hc : credentials_entered w) by (repeat split).
  split; [exact Hc|]. split; [reflexivity|].
  apply (X2_stay_signed_in_other_exception_is_fatal Fixture.jwt w
           WebDriverException Hc eq_refl).
  discriminate.
Defined.

(** ** What [fetch_new_tokens] returns *)

(** The two ways in which the function returns a pair: the [try] block
    ended normally, or a selenium exception was handled. *)
Lemma fetch_returns_inv (jwt_decode : string -> option payload) (w : attempt)
    (a lk : option string) :
  snd (fetch_new_tokens jwt_decode w) = Returns (a, lk) ->
  (exists l, login jwt_decode w Frame.init = (l, Returns tt) /\
     a = Frame.auth_token l /\ lk = Frame.loki_token l) \/
  (exists l e, login jwt_decode w Frame.init = (l, Raises e) /\
     is_webdriver_exception e = true /\ a = None /\ lk = Frame.loki_token l).
Proof.
  unfold fetch_new_tokens, bind, try_finally, try_except.
  destruct (login jwt_decode w Frame.init) as [l [[]|e|]] eqn:E.
  - unfold driver_quit. destruct (Frame.driver l); cbn; [|discriminate].
    intros H. inversion H. left. exists l. auto.
  - destruct (is_webdriver_exception e) eqn:He.
    + rewrite (handle_webdriver_exception e l He).
      unfold driver_quit. cbn. destruct (Frame.driver l); cbn; [|discriminate].
      intros H. inversion H. right. exists l, e. auto.
    + rewrite (handle_other_exception e l He).
      unfold driver_quit. destruct (Frame.driver l); cbn; discriminate.
  - cbn. discriminate.
Qed.

Section ReturnInvariant.

Variable jwt_decode : string -> option payload.
Variable P : Frame.t -> Prop.
Variable w : attempt.
Hypothesis P_driver : forall l, P l -> P (Frame.bind_driver l).
Hypothesis P_teams :
  keeps_on_return P (capture_teams_token jwt_decode (teams_requests w)).
Hypothesis P_loki :
  keeps_on_return P (capture_loki_token (loki_requests w)).

(** An invariant that the two scans and the binding of [driver] respect
    holds when the [try] block ends normally. *)
Lemma login_returns_with : keeps_on_return P (login jwt_decode w).
Proof.
  unfold login.
  repeat first
    [ apply keeps_step_return | apply keeps_step_raise
    | apply (new_driver_keeps_return P P_driver)
    | apply P_teams
    | apply keeps_ret_return
    | apply keeps_try_except_raise | apply keeps_try_except_return
    | apply keeps_bind_raise | apply keeps_bind_return
    | intros _ ].
  all: try (intros l0 l1 x _ Hx; inversion Hx; fail).
  apply P_loki.
Qed.

End ReturnInvariant.

Lemma capture_teams_nonempty (jwt_decode : string -> option payload) s :
  keeps_on_return (fun l => Frame.auth_token l <> Some EmptyString)
    (capture_teams_token jwt_decode s).
Proof.
  intros l l' a _. unfold capture_teams_token.
  destruct (snd (teams_scan jwt_decode s (Frame.auth_token l))) as [st|e|];
    try discriminate.
  cbn [Frame.set_auth_token Frame.auth_token].
  destruct (token st) as [t|]; cbn.
  - destruct (String.eqb_spec t EmptyString) as [E|E]; cbn;
      intros H; inversion H; subst; cbn; congruence.
  - intros H. inversion H. subst. cbn. discriminate.
Qed.

Lemma fetch_teams_token_nonempty (jwt_decode : string -> option payload)
    (w : attempt) (a lk : option string) :
  snd (fetch_new_tokens jwt_decode w) = Returns (a, lk) ->
  a <> Some EmptyString.
Proof.
  intros H. apply fetch_returns_inv in H.
  destruct H as [(l & Hl & -> & _) | (l & e & _ & _ & -> & _)].
  - revert Hl.
    apply (login_returns_with jwt_decode
             (fun l => Frame.auth_token l <> Some EmptyString) w).
    + intros; assumption.
    + apply capture_teams_nonempty.
    + apply capture_loki_keeps_return. intros; assumption.
    + discriminate.
  - discriminate.
Qed.

(** X3: the Teams token that [fetch_new_tokens] returns is never the
    empty string: an empty candidate is turned into [None]. *)
Theorem X3_teams_token_is_never_empty
    (jwt_decode : string -> option payload) (w : attempt)
    (a lk : option string) :
  snd (fetch_new_tokens jwt_decode w) = Returns (a, lk) ->
  a <> Some EmptyString.
Proof. apply fetch_teams_token_nonempty. Qed.

(** The header [Bearer ] with nothing after the space: the first scan
    yields no token, the second the empty string. *)
Lemma X3_teams_token_is_never_empty_witness :
  let r := Fixture.req "https://loki.delve.office.com" "Bearer " in
  snd (fetch_new_tokens Fixture.jwt (Fixture.session [r] [r]))
    = Returns (None, Some EmptyString) /\
  None <> Some EmptyString.
Proof.
  intros r. split; [reflexivity|].
  apply (X3_teams_token_is_never_empty Fixture.jwt (Fixture.session [r] [r])
           None (Some EmptyString)).
  reflexivity.
Defined.

(** ** A login in which every interaction returns *)

(** X4: when every interaction returns (a timeout of the stay-signed-in
    block apart) and the two scans end, [fetch_new_tokens] quits the driver
    once and returns the token the first scan ended with, [None] standing
    for an empty one, and the token of the second scan, which starts from
    [None]. *)
Theorem X4_result_of_complete_login
    (jwt_decode : string -> option payload) (w : attempt)
    (st1 st2 : scan_state (option string)) :
  credentials_entered w ->
  stay_signed_in_passes w ->
  profile_opened w ->
  snd (teams_scan jwt_decode (teams_requests w) None) = Returns st1 ->
  snd (loki_scan (loki_requests w) None) = Returns st2 ->
  snd (fetch_new_tokens jwt_decode w)
  = Returns (if Py.truthy (token st1) then token st1 else None, token st2) /\
  Frame.quit_calls (fst (fetch_new_tokens jwt_decode w)) = 1%nat.
Proof.
  intros (H1 & H2 & H3 & H4 & H5 & H6 & H7 & H8 & H9 & H10 & H11) Hs
         (P1 & P2 & P3 & P4) Ht Hl.
  assert (E : login jwt_decode w Frame.init
    = (Frame.set_loki_token (token st2)
         (Frame.set_auth_token
            (if Py.truthy (token st1) then token st1 else None)
            (Frame.bind_driver Frame.init)), Returns tt)).
  { unfold login, bind at 1 2 3 4 5 6 7 8 9 10 11.
    rewrite H1, H2, H3, H4, H5, H6, H7, H8, H9, H10, H11.
    cbn [step new_driver]. unfold bind at 1.
    rewrite (stay_block_absorbed _ _ _ _ Hs).
    unfold bind at 1. unfold capture_teams_token.
    cbn [Frame.bind_driver Frame.init Frame.auth_token]. rewrite Ht.
    cbn [Frame.set_auth_token Frame.auth_token].
    unfold bind. rewrite P1, P2, P3, P4.
    destruct (Py.truthy (token st1)) eqn:Tr; cbn [negb step];
      unfold capture_loki_token;
      cbn [Frame.set_auth_token Frame.loki_token Frame.bind_driver Frame.init];
      rewrite Hl; reflexivity. }
  rewrite (fetch_after_return jwt_decode w _ E eq_refl).
  split; reflexivity.
Qed.

Lemma X4_result_of_complete_login_witness :
  credentials_entered Fixture.good_session /\
  stay_signed_in_passes Fixture.good_session /\
  profile_opened Fixture.good_session /\
  snd (fetch_new_tokens Fixture.jwt Fixture.good_session)
    = Returns (Some "X", Some "Y") /\
  Frame.quit_calls (fst (fetch_new_tokens Fixture.jwt Fixture.good_session))
    = 1%nat.
Proof.
  assert (Hc : credentials_entered Fixture.good_session) by (repeat split).
  assert (Hs : stay_signed_in_passes Fixture.good_session)
    by (left; reflexivity).
  assert (Hp : profile_opened Fixture.good_session) by (repeat split).
  split; [exact Hc|]. split; [exact Hs|]. split; [exact Hp|].
  apply (X4_result_of_complete_login Fixture.jwt Fixture.good_session
           {| token := Some "X"; found := true; last_checked_index := 1 |}
           {| token := Some "Y"; found := true; last_checked_index := 1 |}
           Hc Hs Hp); reflexivity.
Defined.

(** ** The deadline *)

Lemma finishes_bind {A B : Type} (m : M A) (k : A -> M B) :
  finishes m -> (forall a, finishes (k a)) -> finishes (bind m k).
Proof.
  intros Hm Hk l. unfold bind. specialize (Hm l).
  destruct (m l) as [l' [a|e|]]; cbn in *.
  - apply Hk.
  - discriminate.
  - congruence.
Qed.

Lemma finishes_step (e : effect) : finishes (step e).
Proof. intros l. unfold step. destruct e; discriminate. Qed.

Lemma finishes_new_driver (e : effect) : finishes (new_driver e).
Proof. intros l. unfold new_driver. destruct e; discriminate. Qed.

Lemma finishes_ret {A : Type} (a : A) : finishes (ret a).
Proof. intros l. discriminate. Qed.

Lemma finishes_try_except (m h : M unit) (cls : exn -> bool) :
  finishes m -> finishes h -> finishes (try_except m [(cls, h)]).
Proof.
  intros Hm Hh l. unfold try_except. specialize (Hm l).
  destruct (m l) as [l' [a|e|]]; cbn in *.
  - discriminate.
  - destruct (cls e); [apply Hh | discriminate].
  - congruence.
Qed.

Lemma finishes_capture_teams (jwt_decode : string -> option payload)
    (s : scan_script) :
  reaches_deadline s -> finishes (capture_teams_token jwt_decode s).
Proof.
  intros H l. unfold capture_teams_token, teams_scan.
  pose proof (scan_while_finishes (teams_body jwt_decode) (start_time s)
                (polls s) (scan_init (Frame.auth_token l)) H) as Hf.
  destruct (snd (scan_while _ _ _ _)) as [st|e|].
  - destruct (negb _); discriminate.
  - discriminate.
  - congruence.
Qed.

Lemma finishes_capture_loki (s : scan_script) :
  reaches_deadline s -> finishes (capture_loki_token s).
Proof.
  intros H l. unfold capture_loki_token, loki_scan.
  pose proof (scan_while_finishes loki_body (start_time s)
                (polls s) (scan_init (Frame.loki_token l)) H) as Hf.
  destruct (snd (scan_while _ _ _ _)) as [st|e|].
  - discriminate.
  - discriminate.
  - congruence.
Qed.

Lemma login_finishes (jwt_decode : string -> option payload) (w : attempt) :
  reaches_deadline (teams_requests w) ->
  reaches_deadline (loki_requests w) ->
  finishes (login jwt_decode w).
Proof.
  intros Ht Hl. unfold login.
  repeat first
    [ apply finishes_step | apply finishes_new_driver | apply finishes_ret
    | apply finishes_try_except
    | apply (finishes_capture_teams jwt_decode _ Ht)
    | apply (finishes_capture_loki _ Hl)
    | apply finishes_bind | intros _ ].
Qed.

(** X5: [fetch_new_tokens] comes to an end, whatever the browser does and
    whatever the log holds, as soon as the clock of each scan reaches its
    deadline: neither loop waits for a match beyond it. *)
Theorem X5_fetch_ends_when_clock_reaches_deadline
    (jwt_decode : string -> option payload) (w : attempt) :
  reaches_deadline (teams_requests w) ->
  reaches_deadline (loki_requests w) ->
  snd (fetch_new_tokens jwt_decode w) <> Unfinished.
Proof.
  intros Ht Hl.
  pose proof (login_finishes jwt_decode w Ht Hl Frame.init) as Hf.
  unfold fetch_new_tokens, bind, try_finally, try_except.
  destruct (login jwt_decode w Frame.init) as [l [[]|e|]]; cbn in Hf.
  - unfold driver_quit. destruct (Frame.driver l); discriminate.
  - destruct (is_webdriver_exception e) eqn:He.
    + rewrite (handle_webdriver_exception e l He).
      unfold driver_quit. cbn. destruct (Frame.driver l); discriminate.
    + rewrite (handle_other_exception e l He).
      unfold driver_quit. destruct (Frame.driver l); discriminate.
  - congruence.
Qed.

(** Nothing is captured: both loops poll an empty log until their clock
    is read 31 seconds after the start. *)
Lemma X5_fetch_ends_when_clock_reaches_deadline_witness :
  let w := Fixture.session [] [] in
  reaches_deadline (teams_requests w) /\
  reaches_deadline (loki_requests w) /\
  fst (teams_scan Fixture.jwt (teams_requests w) None)
    = [{| from_index := 0; visited := 0 |}] /\
  fst (loki_scan (loki_requests w) None)
    = [{| from_index := 0; visited := 0 |}] /\
  snd (fetch_new_tokens Fixture.jwt w) = Returns (None, None) /\
  snd (fetch_new_tokens Fixture.jwt w) <> Unfinished.
Proof.
  intros w.
  assert (H : forall rs, reaches_deadline (Fixture.log rs)).
  { intros rs.
    exists {| p_now := seconds 31; p_requests := rs; p_requests_after := rs |}.
    split; [right; left; reflexivity|]. cbv. discriminate. }
  split; [apply H|]. split; [apply H|].
  split; [reflexivity|]. split; [reflexivity|]. split; [reflexivity|].
  apply (X5_fetch_ends_when_clock_reaches_deadline Fixture.jwt w); apply H.
Defined.

Lemma scan_while_iterations {St : Type} (body : request -> St -> ctl St)
    (start : Z) (ps : list poll) (st : scan_state St) (n : nat) (p : poll) :
  nth_error ps n = Some p ->
  scan_deadline <= p_now p - start ->
  (length (fst (scan_while body start ps st)) <= n)%nat.
Proof.
  revert st n. induction ps as [|q ps IH]; intros st n Hn Hd.
  - destruct n; discriminate.
  - destruct (found st) eqn:Hf.
    { rewrite scan_while_found by exact Hf. cbn. lia. }
    destruct (Z.lt_ge_cases (p_now q - start) scan_deadline) as [Ht|Ht].
    2:{ rewrite (scan_while_deadline body start q ps st Ht). cbn. lia. }
    destruct n as [|n]; cbn in Hn.
    { inversion Hn. subst q. lia. }
    rewrite (scan_while_poll body start q ps st Hf Ht).
    destruct (for_requests body _ (token st)) as [c k].
    destruct c as [t|t|e]; cbn [with_record fst length].
    + specialize (IH {| token := t; found := false;
                        last_checked_index := length (p_requests_after q) |}
                     n Hn Hd). lia.
    + specialize (IH {| token := t; found := true;
                        last_checked_index := length (p_requests_after q) |}
                     n Hn Hd). lia.
    + destruct n; cbn; lia.
Qed.

(** X6: no scan polls the log once the clock has been read at or past
    30 seconds: if the reading of poll number [n] is late, the scan made at
    most [n] iterations, and the requests that arrive later are not looked
    at. *)
Theorem X6_no_iteration_after_deadline
    (jwt_decode : string -> option payload) (script : scan_script)
    (t0 : option string) (n : nat) (p : poll) :
  nth_error (polls script) n = Some p ->
  scan_deadline <= p_now p - start_time script ->
  (length (fst (teams_scan jwt_decode script t0)) <= n)%nat /\
  (length (fst (loki_scan script t0)) <= n)%nat.
Proof.
  intros Hn Hd. split.
  - apply (scan_while_iterations (teams_body jwt_decode) (start_time script)
             (polls script) (scan_init t0) n p Hn Hd).
  - apply (scan_while_iterations loki_body (start_time script)
             (polls script) (scan_init t0) n p Hn Hd).
Qed.

(** ** Where the returned tokens come from *)

Section Origin.

Context {St : Type}.
Variable body : request -> St -> ctl St.
Variable start : Z.
Variable Q : request -> St -> Prop.
Hypothesis body_origin :
  forall r s s', body r s = Continue s' \/ body r s = Break s' ->
    s' = s \/ Q r s'.

Lemma for_requests_origin (rs : list request) (s s' : St) :
  fst (for_requests body rs s) = Continue s' \/
  fst (for_requests body rs s) = Break s' ->
  s' = s \/ exists r, In r rs /\ Q r s'.
Proof.
  revert s. induction rs as [|r rs IH]; intros s; cbn.
  - intros [H|H]; inversion H. auto.
  - destruct (body r s) as [s1|s1|e] eqn:E.
    + specialize (IH s1). destruct (for_requests body rs s1) as [c n].
      cbn in *. intros H. destruct (IH H) as [->|(r' & Hr & Hq)].
      * destruct (body_origin r s s1 (or_introl E)) as [->|Hq]; [auto|].
        right. exists r. auto.
      * right. exists r'. auto.
    + cbn. intros [H|H]; inversion H. subst.
      destruct (body_origin r s s' (or_intror E)) as [->|Hq]; [auto|].
      right. exists r. auto.
    + cbn. intros [H|H]; discriminate.
Qed.

(** The token a scan ends with is the one it started with, or one its
    body produced from a request of the log. *)
Lemma scan_while_origin (ps : list poll) (st0 st : scan_state St) :
  snd (scan_while body start ps st0) = Returns st ->
  token st = token st0 \/
  exists p r, In p ps /\ In r (p_requests p) /\
    p_now p - start < scan_deadline /\ Q r (token st).
Proof.
  revert st0. induction ps as [|p ps IH]; intros st0 H.
  - cbn in H. destruct (found st0); inversion H. auto.
  - destruct (found st0) eqn:Hf.
    { rewrite scan_while_found in H by exact Hf. inversion H. auto. }
    destruct (Z.lt_ge_cases (p_now p - start) scan_deadline) as [Ht|Ht].
    2:{ rewrite (scan_while_deadline body start p ps st0 Ht) in H.
        inversion H. auto. }
    rewrite (scan_while_poll body start p ps st0 Hf Ht) in H.
    pose proof (for_requests_origin
      (skipn (last_checked_index st0) (p_requests p)) (token st0)) as Ho.
    destruct (for_requests body _ (token st0)) as [c n].
    destruct c as [t|t|e]; cbn [with_record snd fst] in H.
    + apply IH in H. cbn [token] in H.
      destruct H as [H|(p' & r & Hp & Hr & Hd & Hq)].
      * destruct (Ho t (or_introl eq_refl)) as [E|(r & Hr & Hq)].
        -- left. congruence.
        -- right. exists p, r. rewrite H.
           split; [left; reflexivity|].
           split; [eapply in_skipn; exact Hr|]. auto.
      * right. exists p', r. split; [right; exact Hp|]. auto.
    + rewrite scan_while_found in H by reflexivity. inversion H. subst st.
      cbn [token].
      destruct (Ho t (or_intror eq_refl)) as [E|(r & Hr & Hq)].
      * left. exact E.
      * right. exists p, r. split; [left; reflexivity|].
        split; [eapply in_skipn; exact Hr|]. auto.
    + discriminate.
Qed.

End Origin.

Lemma loki_scan_origin (s : scan_script) (t0 : option string)
    (st : scan_state (option string)) :
  snd (loki_scan s t0) = Returns st ->
  token st = t0 \/ exists t, token st = Some t /\ captured s loki_url t.
Proof.
  intros H. unfold loki_scan in H.
  destruct (scan_while_origin loki_body (start_time s)
              (fun r s' => loki_url r /\ exists t, s' = Some t /\ extracted r t)
              ) with (ps := polls s) (st0 := scan_init t0) (st := st)
    as [E|(p & r & Hp & Hr & Hd & Hu & t & Ht & Hx)].
  - intros r x x' [Hc|Hb].
    + left. apply (loki_body_continue r x x' Hc).
    + right. apply (loki_body_break r x x' Hb).
  - exact H.
  - left. exact E.
  - right. exists t. split; [exact Ht|]. exists p, r. auto 6.
Qed.

Lemma teams_scan_origin (jwt_decode : string -> option payload)
    (s : scan_script) (t0 : option string) (st : scan_state (option string)) :
  snd (teams_scan jwt_decode s t0) = Returns st ->
  token st = t0 \/
  exists t, token st = Some t /\ captured s (fun _ => True) t.
Proof.
  intros H. unfold teams_scan in H.
  destruct (scan_while_origin (teams_body jwt_decode) (start_time s)
              (fun r s' => exists t, s' = Some t /\ extracted r t)
              ) with (ps := polls s) (st0 := scan_init t0) (st := st)
    as [E|(p & r & Hp & Hr & Hd & t & Ht & Hx)].
  - intros r x x' [Hc|Hb].
    + apply (teams_body_continue jwt_decode r x x' Hc).
    + destruct (teams_body_break jwt_decode r x x' Hb) as (t & pl & Ht & Hx & _).
      right. eauto.
  - exact H.
  - left. exact E.
  - right. exists t. split; [exact Ht|]. exists p, r. auto 6.
Qed.

Lemma login_loki_token_origin (jwt_decode : string -> option payload)
    (w : attempt) (l : Frame.t) (t : string) :
  login jwt_decode w Frame.init = (l, Returns tt) ->
  Frame.loki_token l = Some t ->
  captured (loki_requests w) loki_url t.
Proof.
  intros H Ht.
  assert (Q : match Frame.loki_token l with
              | Some t => captured (loki_requests w) loki_url t
              | None => True
              end).
  { revert H.
    apply (login_returns_with jwt_decode
             (fun l => match Frame.loki_token l with
                       | Some t => captured (loki_requests w) loki_url t
                       | None => True
                       end) w).
    - intros l0 H0. exact H0.
    - apply capture_teams_keeps_return. intros v l0 H0. exact H0.
    - intros l0 l1 [] H0. unfold capture_loki_token.
      destruct (snd (loki_scan (loki_requests w) (Frame.loki_token l0)))
        as [st|e|] eqn:E; try discriminate.
      intros H1. inversion H1. subst l1. cbn.
      destruct (loki_scan_origin _ _ _ E) as [Hs|(t' & Hs & Hc)];
        rewrite Hs; [exact H0 | exact Hc].
    - exact I. }
  rewrite Ht in Q. exact Q.
Qed.

(** X7: a Loki token that [fetch_new_tokens] returns was taken from the
    [Authorization] header of a request that the second scan saw before
    its deadline and whose URL ends with [loki.delve.office.com]; the
    function never returns a Loki token after a handled exception. *)
Theorem X7_loki_token_origin (jwt_decode : string -> option payload)
    (w : attempt) (a : option string) (t : string) :
  snd (fetch_new_tokens jwt_decode w) = Returns (a, Some t) ->
  captured (loki_requests w) loki_url t /\
  snd (login jwt_decode w Frame.init) = Returns tt.
Proof.
  intros H. apply fetch_returns_inv in H.
  destruct H as [(l & Hl & _ & Ht) | (l & e & Hl & _ & _ & Ht)].
  - split.
    + apply (login_loki_token_origin jwt_decode w l t Hl). auto.
    + rewrite Hl. reflexivity.
  - destruct (login_raises_untouched jwt_decode w l e Hl) as [Hn _].
    congruence.
Qed.

Lemma X7_loki_token_origin_witness :
  snd (fetch_new_tokens Fixture.jwt Fixture.good_session)
    = Returns (Some "X", Some "Y") /\
  captured (loki_requests Fixture.good_session) loki_url "Y".
Proof.
  split; [reflexivity|].
  apply (X7_loki_token_origin Fixture.jwt Fixture.good_session (Some "X") "Y").
  reflexivity.
Defined.

Lemma login_teams_token_origin (jwt_decode : string -> option payload)
    (w : attempt) (l : Frame.t) (t : string) :
  login jwt_decode w Frame.init = (l, Returns tt) ->
  Frame.auth_token l = Some t ->
  captured (teams_requests w) (fun _ => True) t.
Proof.
  intros H Ht.
  assert (Q : match Frame.auth_token l with
              | Some t => captured (teams_requests w) (fun _ => True) t
              | None => True
              end).
  { revert H.
    apply (login_returns_with jwt_decode
             (fun l => match Frame.auth_token l with
                       | Some t => captured (teams_requests w) (fun _ => True) t
                       | None => True
                       end) w).
    - intros l0 H0. exact H0.
    - intros l0 l1 [] H0. unfold capture_teams_token.
      destruct (snd (teams_scan jwt_decode (teams_requests w)
                       (Frame.auth_token l0))) as [st|e|] eqn:E;
        try discriminate.
      cbn [Frame.set_auth_token Frame.auth_token].
      destruct (negb (Py.truthy (token st)));
        intros H1; inversion H1; subst l1; cbn; [exact I|].
      destruct (teams_scan_origin _ _ _ _ E) as [Hs|(t' & Hs & Hc)];
        rewrite Hs; [exact H0 | exact Hc].
    - apply capture_loki_keeps_return. intros v l0 H0. exact H0.
    - exact I. }
  rewrite Ht in Q. exact Q.
Qed.

(** X8: a Teams token that [fetch_new_tokens] returns was taken from the
    [Authorization] header of a request that the first scan saw before its
    deadline: it is the second of two space-separated parts of a header
    that contains [Bearer]. *)
Theorem X8_teams_token_origin (jwt_decode : string -> option payload)
    (w : attempt) (t : string) (lk : option string) :
  snd (fetch_new_tokens jwt_decode w) = Returns (Some t, lk) ->
  captured (teams_requests w) (fun _ => True) t.
Proof.
  intros H. apply fetch_returns_inv in H.
  destruct H as [(l & Hl & Ht & _) | (l & e & _ & _ & Ht & _)].
  - apply (login_teams_token_origin jwt_decode w l t Hl). auto.
  - discriminate.
Qed.

Lemma X8_teams_token_origin_witness :
  snd (fetch_new_tokens Fixture.jwt Fixture.good_session)
    = Returns (Some "X", Some "Y") /\
  captured (teams_requests Fixture.good_session) (fun _ => True) "X".
Proof.
  split; [reflexivity|].
  apply (X8_teams_token_origin Fixture.jwt Fixture.good_session "X" (Some "Y")).
  reflexivity.
Defined.

(** ** The first request that stops the loop *)

Lemma for_requests_first_stop {St : Type} (body : request -> St -> ctl St)
    (before after : list request) (r : request) (s : St) (c : ctl St) :
  (forall r', In r' before -> forall s, exists s', body r' s = Continue s') ->
  (forall s, body r s = c) ->
  (forall s', c <> Continue s') ->
  for_requests body (before ++ r :: after)%list s = (c, S (length before)).
Proof.
  intros Hq Hb Hc. revert s. induction before as [|r0 before IH]; intros s; cbn.
  - rewrite Hb. destruct c as [x|x|e]; [exfalso; exact (Hc x eq_refl)| |];
      reflexivity.
  - destruct (Hq r0 (or_introl eq_refl) s) as [s' E]. rewrite E.
    rewrite IH; [reflexivity|].
    intros r' Hr'. apply Hq. right. exact Hr'.
Qed.

Lemma teams_body_bearer (jwt_decode : string -> option payload) (r : request)
    (tok : string) (s : option string) :
  headers_get (headers r) "Authorization" = Some ("Bearer " ++ tok) ->
  Py.contains " " tok = false ->
  teams_body jwt_decode r s =
  match jwt_decode tok with
  | None => Continue (Some tok)
  | Some p =>
      match payload_get p "aud" with
      | None => Throw KeyError
      | Some aud =>
          if value_eq_str aud teams_audience then Break (Some tok)
          else Continue (Some tok)
      end
  end.
Proof.
  intros Hh Hs. unfold teams_body. rewrite Hh.
  rewrite (contains_bearer tok), (split_space_bearer tok Hs). reflexivity.
Qed.

(** X9: the first scan returns the token of a request that carries
    [Authorization: Bearer tok] where [tok] decodes to a payload whose
    [aud] is the Teams audience, when the request is in the log at the
    first poll, that poll is before the deadline, and no request before it
    in the log stops the loop. *)
Theorem X9_teams_audience_is_matched (jwt_decode : string -> option payload)
    (script : scan_script) (p : poll) (ps : list poll)
    (before after : list request) (r : request) (tok : string)
    (pl : payload) (initial : option string) :
  polls script = p :: ps ->
  p_now p - start_time script < scan_deadline ->
  p_requests p = (before ++ r :: after)%list ->
  (forall r', In r' before ->
     forall s, exists s', teams_body jwt_decode r' s = Continue s') ->
  headers_get (headers r) "Authorization" = Some ("Bearer " ++ tok) ->
  Py.contains " " tok = false ->
  jwt_decode tok = Some pl ->
  payload_get pl "aud" = Some (VStr teams_audience) ->
  teams_scan jwt_decode script initial =
  ([{| from_index := 0; visited := S (length before) |}],
   Returns {| token := Some tok; found := true;
              last_checked_index := length (p_requests_after p) |}).
Proof.
  intros Hp Ht Hl Hq Hh Hs Hd Ha. unfold teams_scan. rewrite Hp.
  rewrite (scan_while_poll (teams_body jwt_decode) (start_time script) p ps
             (scan_init initial) eq_refl Ht).
  cbn [scan_init last_checked_index token skipn]. rewrite Hl.
  rewrite (for_requests_first_stop (teams_body jwt_decode) before after r
             initial (Break (Some tok)) Hq).
  - rewrite scan_while_found by reflexivity. reflexivity.
  - intros s. rewrite (teams_body_bearer jwt_decode r tok s Hh Hs), Hd, Ha.
    reflexivity.
  - discriminate.
Qed.

Lemma X9_teams_audience_is_matched_witness :
  let other := Fixture.req "https://graph.microsoft.com/v1.0/me" "Bearer G" in
  Fixture.jwt "X"
    = Some [("aud", VStr teams_audience); ("exp", VInt 1700003600)] /\
  snd (teams_scan Fixture.jwt (Fixture.log [other; Fixture.teams_request]) None)
    = Returns {| token := Some "X"; found := true; last_checked_index := 2 |}.
Proof.
  intros other. split; [reflexivity|].
  rewrite (X9_teams_audience_is_matched Fixture.jwt
             (Fixture.log [other; Fixture.teams_request])
             {| p_now := 0; p_requests := [other; Fixture.teams_request];
                p_requests_after := [other; Fixture.teams_request] |}
             [ {| p_now := seconds 31;
                  p_requests := [other; Fixture.teams_request];
                  p_requests_after := [other; Fixture.teams_request] |} ]
             [other] [] Fixture.teams_request "X"
             [("aud", VStr teams_audience); ("exp", VInt 1700003600)] None).
  - reflexivity.
  - reflexivity.
  - reflexivity.
  - reflexivity.
  - intros r' [Hr|[]] s. subst r'. exists (Some "G"). reflexivity.
  - reflexivity.
  - reflexivity.
  - reflexivity.
  - reflexivity.
Defined.

(** ** A payload without [aud] *)

(** X10: a request with [Authorization: Bearer tok] where [tok] decodes to
    a payload that has no [aud] makes the first scan raise [KeyError], when
    the request is in the log at the first poll, that poll is before the
    deadline, and no request before it in the log stops the loop. *)
Theorem X10_missing_aud_raises_key_error
    (jwt_decode : string -> option payload)
    (script : scan_script) (p : poll) (ps : list poll)
    (before after : list request) (r : request) (tok : string)
    (pl : payload) (initial : option string) :
  polls script = p :: ps ->
  p_now p - start_time script < scan_deadline ->
  p_requests p = (before ++ r :: after)%list ->
  (forall r', In r' before ->
     forall s, exists s', teams_body jwt_decode r' s = Continue s') ->
  headers_get (headers r) "Authorization" = Some ("Bearer " ++ tok) ->
  Py.contains " " tok = false ->
  jwt_decode tok = Some pl ->
  payload_get pl "aud" = None ->
  snd (teams_scan jwt_decode script initial) = Raises KeyError.
Proof.
  intros Hp Ht Hl Hq Hh Hs Hd Ha. unfold teams_scan. rewrite Hp.
  rewrite (scan_while_poll (teams_body jwt_decode) (start_time script) p ps
             (scan_init initial) eq_refl Ht).
  cbn [scan_init last_checked_index token skipn]. rewrite Hl.
  rewrite (for_requests_first_stop (teams_body jwt_decode) before after r
             initial (Throw KeyError) Hq).
  - reflexivity.
  - intros s. rewrite (teams_body_bearer jwt_decode r tok s Hh Hs), Hd, Ha.
    reflexivity.
  - discriminate.
Qed.

Lemma X10_missing_aud_raises_key_error_witness :
  Sample.jwt "NOAUD" = Some [("exp", VInt 1700003600)] /\
  snd (teams_scan Sample.jwt
         (Fixture.log [Sample.noaud_request; Fixture.teams_request]) None)
    = Raises KeyError.
Proof.
  split; [reflexivity|].
  apply (X10_missing_aud_raises_key_error Sample.jwt
           (Fixture.log [Sample.noaud_request; Fixture.teams_request])
           {| p_now := 0;
              p_requests := [Sample.noaud_request; Fixture.teams_request];
              p_requests_after := [Sample.noaud_request; Fixture.teams_request] |}
           [ {| p_now := seconds 31;
                p_requests := [Sample.noaud_request; Fixture.teams_request];
                p_requests_after :=
                  [Sample.noaud_request; Fixture.teams_request] |} ]
           [] [Fixture.teams_request] Sample.noaud_request "NOAUD"
           [("exp", VInt 1700003600)] None); try reflexivity.
  intros r' [].
Defined.

Lemma for_requests_throw_inv {St : Type} (body : request -> St -> ctl St)
    (rs : list request) (s : St) (e : exn) :
  fst (for_requests body rs s) = Throw e ->
  exists r s', In r rs /\ body r s' = Throw e.
Proof.
  revert s. induction rs as [|r rs IH]; intros s; cbn.
  - discriminate.
  - destruct (body r s) as [s'|s'|x] eqn:E.
    + specialize (IH s'). destruct (for_requests body rs s') as [c n].
      cbn in *. intros H. destruct (IH H) as (r' & s'' & Hin & Hb).
      exists r', s''. auto.
    + discriminate.
    + cbn. intros H. inversion H. subst. exists r, s. auto.
Qed.

Lemma scan_while_raises_inv {St : Type} (body : request -> St -> ctl St)
    (start : Z) (ps : list poll) (st : scan_state St) (e : exn) :
  snd (scan_while body start ps st) = Raises e ->
  exists r s, body r s = Throw e.
Proof.
  revert st. induction ps as [|p ps IH]; intros st H.
  - cbn in H. destruct (found st); discriminate.
  - destruct (found st) eqn:Hf.
    { rewrite scan_while_found in H by exact Hf. discriminate. }
    destruct (Z.lt_ge_cases (p_now p - start) scan_deadline) as [Ht|Ht].
    2:{ rewrite (scan_while_deadline body start p ps st Ht) in H.
        discriminate. }
    rewrite (scan_while_poll body start p ps st Hf Ht) in H.
    pose proof (for_requests_throw_inv body
      (skipn (last_checked_index st) (p_requests p)) (token st)) as Hi.
    destruct (for_requests body _ (token st)) as [c n].
    destruct c as [t|t|x]; cbn [with_record snd fst] in H.
    + apply IH in H. exact H.
    + apply IH in H. exact H.
    + inversion H. subst x. destruct (Hi e eq_refl) as (r & s & _ & Hb).
      eauto.
Qed.

Lemma teams_body_throw (jwt_decode : string -> option payload) r s e :
  teams_body jwt_decode r s = Throw e -> e = KeyError.
Proof.
  unfold teams_body.
  destruct (headers_get (headers r) "Authorization") as [h|]; [|discriminate].
  destruct (String.eqb h EmptyString); [discriminate|].
  destruct (negb (Py.contains "Bearer" h)); [discriminate|].
  destruct (negb _); [discriminate|].
  destruct (jwt_decode _) as [p|]; [|discriminate].
  destruct (payload_get p "aud") as [v|].
  - destruct (value_eq_str v teams_audience); discriminate.
  - intros H. inversion H. reflexivity.
Qed.

(** X11: the only exception the first scan raises is [KeyError].  When it
    does, after the credentials were entered, [fetch_new_tokens] quits the
    driver once and raises it, no [except] clause applies, and a refresh by
    [check_tokens] or [get_token] raises it too and leaves the stored
    tokens as they were. *)
Theorem X11_key_error_leaves_record_unchanged
    (jwt_decode : string -> option payload)
    (local_datetime : Z -> option Z) (w : attempt) (e : exn) :
  credentials_entered w ->
  stay_signed_in_passes w ->
  snd (teams_scan jwt_decode (teams_requests w) None) = Raises e ->
  e = KeyError /\
  fetch_new_tokens jwt_decode w
  = (Frame.count_quit (Frame.bind_driver Frame.init), Raises KeyError) /\
  (forall now self service,
     refresh_needed jwt_decode local_datetime now self = Returns true ->
     check_tokens jwt_decode local_datetime now w self
     = {| self_after := self; returned := Raises KeyError; fetch_calls := 1 |} /\
     get_token jwt_decode local_datetime service now w self
     = {| self_after := self; returned := Raises KeyError; fetch_calls := 1 |}).
Proof.
  intros (H1 & H2 & H3 & H4 & H5 & H6 & H7 & H8 & H9 & H10 & H11) Hs Ht.
  assert (He : e = KeyError).
  { unfold teams_scan in Ht. apply scan_while_raises_inv in Ht.
    destruct Ht as (r & s & Hb). apply (teams_body_throw jwt_decode r s e Hb). }
  subst e. split; [reflexivity|].
  assert (E : login jwt_decode w Frame.init
              = (Frame.bind_driver Frame.init, Raises KeyError)).
  { unfold login, bind at 1 2 3 4 5 6 7 8 9 10 11.
    rewrite H1, H2, H3, H4, H5, H6, H7, H8, H9, H10, H11.
    cbn [step new_driver]. unfold bind at 1.
    rewrite (stay_block_absorbed _ _ _ _ Hs).
    unfold bind at 1. unfold capture_teams_token.
    cbn [Frame.bind_driver Frame.init Frame.auth_token]. rewrite Ht.
    reflexivity. }
  assert (F : fetch_new_tokens jwt_decode w
              = (Frame.count_quit (Frame.bind_driver Frame.init),
                 Raises KeyError)).
  { apply (fetch_after_other_exception jwt_decode w _ KeyError E);
      reflexivity. }
  split; [exact F|].
  intros now self service Hn.
  unfold check_tokens, get_token, refresh_tokens. rewrite Hn, F.
  split; reflexivity.
Qed.

Lemma X11_key_error_leaves_record_unchanged_witness :
  let w := Fixture.session [Sample.noaud_request] [] in
  let self := Fixture.puppet None (Some "L0") in
  credentials_entered w /\ stay_signed_in_passes w /\
  refresh_needed Sample.jwt Fixture.utc Fixture.now self = Returns true /\
  get_token Sample.jwt Fixture.utc "loki" Fixture.now w self
  = {| self_after := self; returned := Raises KeyError; fetch_calls := 1 |}.
Proof.
  intros w self.
  assert (Hc : credentials_entered w) by (repeat split).
  assert (Hs : stay_signed_in_passes w) by (left; reflexivity).
  split; [exact Hc|]. split; [exact Hs|]. split; [reflexivity|].
  destruct (X11_key_error_leaves_record_unchanged Sample.jwt Fixture.utc w KeyError Hc Hs
              eq_refl) as (_ & _ & H).
  apply (H Fixture.now self "loki"). reflexivity.
Defined.

(** ** A stored token whose [exp] cannot be read *)

(** X12: when the stored Teams token decodes but its payload has no
    [exp], [time_til_expiration] raises [KeyError]; when [exp] is a string
    or null it raises [TypeError].  [check_tokens] and [get_token] then
    raise the same exception before any call of [fetch_new_tokens] and leave
    the object as it is, so every later call does the same. *)
Theorem X12_unreadable_exp_blocks_refresh
    (jwt_decode : string -> option payload)
    (local_datetime : Z -> option Z) (now : Z) (w : attempt)
    (self : Puppet) (service : string) (t : string) (p : payload) (e : exn) :
  teams_token self = Some t -> t <> EmptyString ->
  jwt_decode t = Some p ->
  (payload_get p "exp" = None /\ e = KeyError) \/
  ((payload_get p "exp" = Some VNull \/
    exists s, payload_get p "exp" = Some (VStr s)) /\ e = TypeError) ->
  time_til_expiration jwt_decode local_datetime now self = Raises e /\
  check_tokens jwt_decode local_datetime now w self
  = {| self_after := self; returned := Raises e; fetch_calls := 0 |} /\
  get_token jwt_decode local_datetime service now w self
  = {| self_after := self; returned := Raises e; fetch_calls := 0 |}.
Proof.
  intros Ht Hne Hd Hexp.
  assert (E : time_til_expiration jwt_decode local_datetime now self = Raises e).
  { unfold time_til_expiration, decode. rewrite Ht.
    apply String.eqb_neq in Hne. rewrite Hne, Hd. cbn [obind].
    destruct Hexp as [[Hx ->] | [[Hx | [s Hx]] ->]]; rewrite Hx; reflexivity. }
  assert (N : refresh_needed jwt_decode local_datetime now self = Raises e).
  { unfold refresh_needed. rewrite E, Ht. unfold Py.truthy.
    apply String.eqb_neq in Hne. rewrite Hne. reflexivity. }
  split; [exact E|].
  unfold check_tokens, get_token. rewrite N. split; reflexivity.
Qed.

Lemma X12_unreadable_exp_blocks_refresh_witness :
  Sample.jwt "NOEXP" = Some [("aud", VStr teams_audience)] /\
  get_token Sample.jwt Fixture.utc "teams" Fixture.now Fixture.good_session
    (Fixture.puppet (Some "NOEXP") None)
  = {| self_after := Fixture.puppet (Some "NOEXP") None;
       returned := Raises KeyError; fetch_calls := 0 |} /\
  check_tokens Sample.jwt Fixture.utc Fixture.now Fixture.good_session
    (Fixture.puppet (Some "TEXT") None)
  = {| self_after := Fixture.puppet (Some "TEXT") None;
       returned := Raises TypeError; fetch_calls := 0 |}.
Proof.
  split; [reflexivity|]. split.
  - apply (X12_unreadable_exp_blocks_refresh Sample.jwt Fixture.utc Fixture.now
             Fixture.good_session (Fixture.puppet (Some "NOEXP") None)
             "teams" "NOEXP" [("aud", VStr teams_audience)] KeyError);
      try reflexivity; [discriminate | left; split; reflexivity].
  - apply (X12_unreadable_exp_blocks_refresh Sample.jwt Fixture.utc Fixture.now
             Fixture.good_session (Fixture.puppet (Some "TEXT") None)
             "teams" "TEXT"
             [("aud", VStr teams_audience); ("exp", VStr "tomorrow")]
             TypeError);
      try reflexivity; [discriminate|].
    right. split; [|reflexivity]. right. exists "tomorrow". reflexivity.
Defined.

(** ** [get_token] and [check_tokens] *)

(** X13: [get_token] does to the object what [check_tokens] does, for
    every service name, and calls [fetch_new_tokens] as often.  What it
    returns is read from the object afterwards; a service other than
    [teams] and [loki] yields [None], refresh included. *)
Theorem X13_get_token_is_check_then_read
    (jwt_decode : string -> option payload)
    (local_datetime : Z -> option Z) (service : string) (now : Z)
    (w : attempt) (self : Puppet) :
  let c := check_tokens jwt_decode local_datetime now w self in
  let g := get_token jwt_decode local_datetime service now w self in
  self_after g = self_after c /\
  fetch_calls g = fetch_calls c /\
  returned g
  = obind (returned c) (fun _ => Returns (token_of service (self_after c))) /\
  (service <> "teams" -> service <> "loki" ->
   returned c = Returns tt -> returned g = Returns None).
Proof.
  cbv zeta. unfold get_token, check_tokens.
  split; [reflexivity|]. split; [reflexivity|]. split; [reflexivity|].
  intros H1 H2 Hr. cbn [returned]. rewrite Hr. cbn [obind]. unfold token_of.
  apply String.eqb_neq in H1, H2. rewrite H1, H2. reflexivity.
Qed.

Lemma X13_get_token_is_check_then_read_witness :
  returned (check_tokens Fixture.jwt Fixture.utc Fixture.now Fixture.good_session
              (Fixture.puppet None None)) = Returns tt /\
  get_token Fixture.jwt Fixture.utc "graph" Fixture.now Fixture.good_session
    (Fixture.puppet None None)
  = {| self_after := Fixture.puppet (Some "X") (Some "Y");
       returned := Returns None; fetch_calls := 1 |}.
Proof.
  split; [reflexivity|].
  destruct (X13_get_token_is_check_then_read Fixture.jwt Fixture.utc "graph" Fixture.now
              Fixture.good_session (Fixture.puppet None None))
    as (H1 & H2 & _ & H4).
  assert (H : returned (get_token Fixture.jwt Fixture.utc "graph" Fixture.now
                          Fixture.good_session (Fixture.puppet None None))
              = Returns None).
  { apply H4; [discriminate | discriminate | reflexivity]. }
  destruct (get_token Fixture.jwt Fixture.utc "graph" Fixture.now Fixture.good_session
              (Fixture.puppet None None)) as [s r n].
  cbn in H1, H2, H. subst. reflexivity.
Defined.

(** ** One call after another *)

(** X14: two calls of [get_token], one after the other.  If the first
    one refreshes and the login returns a Teams token whose local expiry
    date is more than five minutes after the local date read at the second
    call, the second call does not log in again: it leaves the object as
    the first left it and returns the stored token of its service. *)
Theorem X14_second_call_reuses_tokens
    (jwt_decode : string -> option payload) (local_datetime : Z -> option Z)
    (service1 service2 : string)
    (now1 now2 : Z) (w1 w2 : attempt) (self : Puppet)
    (t : string) (lk : option string) (p : payload) (e d : Z) :
  refresh_needed jwt_decode local_datetime now1 self = Returns true ->
  snd (fetch_new_tokens jwt_decode w1) = Returns (Some t, lk) ->
  jwt_decode t = Some p ->
  payload_get p "exp" = Some (VInt e) ->
  local_datetime e = Some d ->
  minutes 5 < d - now2 ->
  let first := get_token jwt_decode local_datetime service1 now1 w1 self in
  let second := get_token jwt_decode local_datetime service2 now2 w2
                  (self_after first) in
  first = {| self_after := set_tokens (Some t, lk) self;
             returned := Returns (token_of service1
                                    (set_tokens (Some t, lk) self));
             fetch_calls := 1 |} /\
  second = {| self_after := set_tokens (Some t, lk) self;
              returned := Returns (token_of service2
                                     (set_tokens (Some t, lk) self));
              fetch_calls := 0 |}.
Proof.
  intros Hn Hf Hd He Hl Hfresh.
  assert (Hne : t <> EmptyString).
  { intros ->. apply (fetch_teams_token_nonempty jwt_decode w1 _ _ Hf).
    reflexivity. }
  assert (F : get_token jwt_decode local_datetime service1 now1 w1 self
              = {| self_after := set_tokens (Some t, lk) self;
                   returned := Returns (token_of service1
                                          (set_tokens (Some t, lk) self));
                   fetch_calls := 1 |}).
  { unfold get_token, refresh_tokens. rewrite Hn, Hf. reflexivity. }
  cbv zeta. rewrite F. split; [reflexivity|]. cbn [self_after].
  unfold get_token.
  rewrite (refresh_not_needed jwt_decode local_datetime now2
             (set_tokens (Some t, lk) self)
             t p e d eq_refl Hne Hd He Hl Hfresh).
  reflexivity.
Qed.

Lemma X14_second_call_reuses_tokens_witness :
  let self := Fixture.puppet (Some "OLD") None in
  let first := get_token Fixture.jwt Fixture.utc "teams" Fixture.now
                 Fixture.good_session self in
  let second := get_token Fixture.jwt Fixture.utc "loki"
                  (Fixture.now + minutes 10)
                  Fixture.no_browser (self_after first) in
  refresh_needed Fixture.jwt Fixture.utc Fixture.now self = Returns true /\
  Fixture.utc 1700003600 = Some (seconds 1700003600) /\
  fetch_calls first = 1%nat /\
  second = {| self_after := Fixture.puppet (Some "X") (Some "Y");
              returned := Returns (Some "Y"); fetch_calls := 0 |}.
Proof.
  intros self first second.
  split; [reflexivity|]. split; [reflexivity|]. split; [reflexivity|].
  exact (proj2 (X14_second_call_reuses_tokens Fixture.jwt Fixture.utc
                  "teams" "loki"
                  Fixture.now (Fixture.now + minutes 10)
                  Fixture.good_session Fixture.no_browser self
                  "X" (Some "Y")
                  [("aud", VStr teams_audience); ("exp", VInt 1700003600)]
                  1700003600 (seconds 1700003600)
                  eq_refl eq_refl eq_refl eq_refl eq_refl eq_refl)).
Defined.

(** X15: the constructor logs in once, whatever was stored, and keeps the
    credentials.  If that login returns a Teams token whose local expiry
    date is more than five minutes after the local date read when
    [get_token] is first called, that call does not log in again and
    returns the token the constructor stored. *)
Theorem X15_constructor_then_get_token
    (jwt_decode : string -> option payload) (local_datetime : Z -> option Z)
    (user pass service : string)
    (now : Z) (w1 w2 : attempt)
    (t : string) (lk : option string) (p : payload) (e d : Z) :
  snd (fetch_new_tokens jwt_decode w1) = Returns (Some t, lk) ->
  jwt_decode t = Some p ->
  payload_get p "exp" = Some (VInt e) ->
  local_datetime e = Some d ->
  minutes 5 < d - now ->
  let made := {| username := user; password := pass;
                 teams_token := Some t; loki_token := lk |} in
  init jwt_decode user pass w1
  = {| self_after := made; returned := Returns tt; fetch_calls := 1 |} /\
  get_token jwt_decode local_datetime service now w2 made
  = {| self_after := made; returned := Returns (token_of service made);
       fetch_calls := 0 |}.
Proof.
  intros Hf Hd He Hl Hfresh.
  assert (Hne : t <> EmptyString).
  { intros ->. apply (fetch_teams_token_nonempty jwt_decode w1 _ _ Hf).
    reflexivity. }
  cbv zeta. split.
  - unfold init, refresh_tokens. rewrite Hf. reflexivity.
  - unfold get_token.
    rewrite (refresh_not_needed jwt_decode local_datetime now
               {| username := user; password := pass;
                  teams_token := Some t; loki_token := lk |}
               t p e d eq_refl Hne Hd He Hl Hfresh).
    reflexivity.
Qed.

Lemma X15_constructor_then_get_token_witness :
  snd (fetch_new_tokens Fixture.jwt Fixture.good_session)
    = Returns (Some "X", Some "Y") /\
  Fixture.utc 1700003600 = Some (seconds 1700003600) /\
  init Fixture.jwt "user@example.com" "secret" Fixture.good_session
  = {| self_after := Fixture.puppet (Some "X") (Some "Y");
       returned := Returns tt; fetch_calls := 1 |} /\
  get_token Fixture.jwt Fixture.utc "teams" Fixture.now Fixture.no_browser
    (Fixture.puppet (Some "X") (Some "Y"))
  = {| self_after := Fixture.puppet (Some "X") (Some "Y");
       returned := Returns (Some "X"); fetch_calls := 0 |}.
Proof.
  split; [reflexivity|]. split; [reflexivity|].
  apply (X15_constructor_then_get_token Fixture.jwt Fixture.utc
           "user@example.com"
           "secret" "teams" Fixture.now Fixture.good_session
           Fixture.no_browser "X" (Some "Y")
           [("aud", VStr teams_audience); ("exp", VInt 1700003600)]
           1700003600 (seconds 1700003600)); reflexivity.
Defined.

Lemma X6_no_iteration_after_deadline_witness :
  nth_error (polls Sample.late_log) 1
    = Some {| p_now := seconds 31; p_requests := [Fixture.teams_request];
              p_requests_after := [Fixture.teams_request] |} /\
  snd (teams_scan Fixture.jwt Sample.late_log None)
    = Returns {| token := None; found := false; last_checked_index := 0 |} /\
  (length (fst (teams_scan Fixture.jwt Sample.late_log None)) <= 1)%nat /\
  (length (fst (loki_scan Sample.late_log None)) <= 1)%nat.
Proof.
  split; [reflexivity|]. split; [reflexivity|].
  apply (X6_no_iteration_after_deadline Fixture.jwt Sample.late_log None 1%nat
           {| p_now := seconds 31; p_requests := [Fixture.teams_request];
              p_requests_after := [Fixture.teams_request] |}).
  - reflexivity.
  - cbv. discriminate.
Defined.

(** ** Requests that arrive while a poll is running *)

Lemma append_only_length (seen : list request) (ps : list poll) (p : poll) :
  append_only seen ps -> In p ps ->
  (length seen <= length (p_requests p))%nat.
Proof.
  revert seen. induction ps as [|q ps IH]; intros seen Ha Hp.
  - contradiction.
  - destruct Ha as (H1 & H2 & H3).
    apply extends_length in H1. apply extends_length in H2.
    destruct Hp as [->|Hp]; [exact H1|].
    specialize (IH _ H3 Hp). lia.
Qed.

Lemma chained_in_lower_bound (c : nat) (tr : list poll_record)
    (rec : poll_record) :
  chained c tr -> In rec tr -> (c <= from_index rec)%nat.
Proof.
  intros Hc Hi. destruct (In_nth_error _ _ Hi) as [j Hj].
  apply (chained_lower_bound c tr Hc j rec Hj).
Qed.

Lemma scan_while_gap {St : Type} (body : request -> St -> ctl St)
    (start : Z) (ps : list poll) (st : scan_state St) (seen : list request)
    (p : poll) (k : nat) :
  append_only seen ps ->
  (last_checked_index st <= length seen)%nat ->
  In p ps ->
  (length (p_requests p) <= k < length (p_requests_after p))%nat ->
  forall rec, In rec (fst (scan_while body start ps st)) -> ~ examines rec k.
Proof.
  revert st seen. induction ps as [|q ps IH]; intros st seen Ha Hc Hp Hk rec.
  - contradiction.
  - destruct (found st) eqn:Hf.
    { rewrite scan_while_found by exact Hf. intros []. }
    destruct (Z.lt_ge_cases (p_now q - start) scan_deadline) as [Ht|Ht].
    2:{ rewrite (scan_while_deadline body start q ps st Ht). intros []. }
    rewrite (scan_while_poll body start q ps st Hf Ht).
    pose proof Ha as (H1 & H2 & H3).
    apply extends_length in H1. apply extends_length in H2.
    pose proof (for_requests_visited body
      (skipn (last_checked_index st) (p_requests q)) (token st)) as Hv.
    rewrite length_skipn in Hv.
    destruct (for_requests body _ (token st)) as [c n]. cbn [snd] in Hv.
    assert (Hfirst : ~ examines
              {| from_index := last_checked_index st; visited := n |} k).
    { unfold examines. cbn. destruct Hp as [E|Hp]; [subst p; lia|].
      pose proof (append_only_length _ _ _ H3 Hp). lia. }
    assert (Hrest : forall st',
              last_checked_index st' = length (p_requests_after q) ->
              In rec (fst (scan_while body start ps st')) ->
              ~ examines rec k).
    { intros st' Hc' Hin. destruct Hp as [E|Hp].
      - subst p. pose proof (scan_while_chained body start ps st'
                      (p_requests_after q) H3) as Hch.
        rewrite Hc' in Hch. specialize (Hch (le_n _)).
        pose proof (chained_in_lower_bound _ _ _ Hch Hin).
        unfold examines. lia.
      - apply (IH st' (p_requests_after q) H3); [lia | exact Hp | exact Hk
                                                 | exact Hin]. }
    destruct c as [t|t|e]; cbn [with_record fst].
    + intros [<-|Hin]; [exact Hfirst|]. eapply Hrest; [|exact Hin]. reflexivity.
    + intros [<-|Hin]; [exact Hfirst|]. eapply Hrest; [|exact Hin]. reflexivity.
    + intros [<-|[]]. exact Hfirst.
Qed.

(** X16: a request that is appended to the log while a poll runs, after
    the slice was taken and before the cursor was set to the length of the
    log, is never visited by the scan, neither in that iteration nor in a
    later one. *)
Theorem X16_request_arriving_during_poll_is_skipped
    (jwt_decode : string -> option payload) (script : scan_script)
    (t0 : option string) (p : poll) (k : nat) :
  append_only [] (polls script) ->
  In p (polls script) ->
  (length (p_requests p) <= k < length (p_requests_after p))%nat ->
  (forall rec, In rec (fst (teams_scan jwt_decode script t0)) ->
     ~ examines rec k) /\
  (forall rec, In rec (fst (loki_scan script t0)) -> ~ examines rec k).
Proof.
  intros Ha Hp Hk. split.
  - apply (scan_while_gap (teams_body jwt_decode) (start_time script)
             (polls script) (scan_init t0) [] p k Ha); [cbn; lia|exact Hp|exact Hk].
  - apply (scan_while_gap loki_body (start_time script)
             (polls script) (scan_init t0) [] p k Ha); [cbn; lia|exact Hp|exact Hk].
Qed.

(** The Teams request arrives during the first poll: the scan never
    visits index 1 and ends without the token. *)
Lemma X16_request_arriving_during_poll_is_skipped_witness :
  append_only [] (polls Sample.gap_log) /\
  nth_error (p_requests_after
               (nth 0 (polls Sample.gap_log)
                  {| p_now := 0; p_requests := []; p_requests_after := [] |}))
    1 = Some Fixture.teams_request /\
  snd (teams_scan Fixture.jwt Sample.gap_log None)
    = Returns {| token := None; found := false; last_checked_index := 2 |} /\
  (forall rec, In rec (fst (teams_scan Fixture.jwt Sample.gap_log None)) ->
     ~ examines rec 1).
Proof.
  assert (Ha : append_only [] (polls Sample.gap_log)).
  { cbn. repeat split; try (eexists; reflexivity);
      try (exists []; reflexivity). }
  split; [exact Ha|]. split; [reflexivity|]. split; [reflexivity|].
  apply (X16_request_arriving_during_poll_is_skipped Fixture.jwt
           Sample.gap_log None
           (nth 0 (polls Sample.gap_log)
              {| p_now := 0; p_requests := []; p_requests_after := [] |})
           1%nat Ha).
  - left. reflexivity.
  - cbn. lia.
Defined.

(** ** The shape of a header that yields a token *)

Lemma split_space_nonempty (s : string) : Py.split_space s <> [].
Proof.
  destruct s as [|c s]; cbn; [discriminate|].
  destruct (Ascii.eqb c " "%char); [discriminate|].
  destruct (Py.split_space s); discriminate.
Qed.

Lemma contains_space_cons (c : ascii) (s : string) :
  Py.contains " " (String c s) = Ascii.eqb c " "%char || Py.contains " " s.
Proof.
  cbn [Py.contains]. f_equal.
  change (String.prefix " " (String c s))
    with (if ascii_dec " "%char c then String.prefix EmptyString s else false).
  destruct (ascii_dec " "%char c) as [E|E].
  - subst c. rewrite Ascii.eqb_refl. destruct s; reflexivity.
  - symmetry. apply Ascii.eqb_neq. congruence.
Qed.

Lemma split_space_one (s t : string) :
  Py.split_space s = [t] -> s = t /\ Py.contains " " t = false.
Proof.
  revert t. induction s as [|c s IH]; intros t; cbn [Py.split_space].
  - intros H. inversion H. split; reflexivity.
  - destruct (Ascii.eqb c " "%char) eqn:Ec.
    + intros H. inversion H as [[H1 H2]].
      exfalso. exact (split_space_nonempty s H2).
    + destruct (Py.split_space s) as [|h tl] eqn:Es.
      * exfalso. exact (split_space_nonempty s Es).
      * intros H. inversion H. subst.
        destruct (IH h eq_refl) as [-> Hn].
        split; [reflexivity|]. rewrite contains_space_cons, Ec, Hn.
        reflexivity.
Qed.

(** [split(" ")] gives two parts exactly for [a ++ " " ++ t] with no
    space in [a] and none in [t]. *)
Lemma split_space_two (s a t : string) :
  Py.split_space s = [a; t] <->
  s = a ++ " " ++ t /\
  Py.contains " " a = false /\ Py.contains " " t = false.
Proof.
  split.
  - revert a. induction s as [|c s IH]; intros a; cbn [Py.split_space].
    + discriminate.
    + destruct (Ascii.eqb_spec c " "%char) as [->|Ec].
      * intros H. inversion H. subst.
        match goal with H : Py.split_space s = [t] |- _ =>
          destruct (split_space_one s t H) as [-> Hn] end.
        split; [reflexivity|]. split; [reflexivity | exact Hn].
      * destruct (Py.split_space s) as [|h tl] eqn:Es.
        -- discriminate.
        -- intros H. inversion H. subst.
           destruct (IH h eq_refl) as (-> & Hh & Ht).
           split; [reflexivity|]. split; [|exact Ht].
           rewrite contains_space_cons, Hh.
           destruct (Ascii.eqb_spec c " "%char); [congruence|reflexivity].
  - intros (-> & Ha & Ht). induction a as [|c a IH].
    + cbn. rewrite (split_space_no_space t Ht). reflexivity.
    + rewrite contains_space_cons in Ha. apply orb_false_iff in Ha.
      destruct Ha as [Hc Ha]. cbn [append Py.split_space]. rewrite Hc.
      cbn [append] in IH. rewrite (IH Ha). reflexivity.
Qed.

Lemma eqb_append_space (a t : string) :
  String.eqb (a ++ " " ++ t) EmptyString = false.
Proof. destruct a; reflexivity. Qed.

(** X17: the exact condition under which each loop stops at a request
    with token [t].  The [Authorization] header must be [a ++ " " ++ t]
    with no space in [a] and none in [t], and [Bearer] must occur in it;
    for the second scan the URL must end with [loki.delve.office.com]; for
    the first scan [t] must decode to a payload whose [aud] is the Teams
    audience.  So a token that stops a loop never contains a space. *)
Theorem X17_match_conditions (jwt_decode : string -> option payload)
    (r : request) (s : option string) (t : string) :
  let shaped :=
    exists a,
      headers_get (headers r) "Authorization" = Some (a ++ " " ++ t) /\
      Py.contains " " a = false /\ Py.contains " " t = false /\
      Py.contains "Bearer" (a ++ " " ++ t) = true in
  (loki_body r s = Break (Some t) <->
   Py.endswith (url r) loki_suffix = true /\ shaped) /\
  (teams_body jwt_decode r s = Break (Some t) <->
   shaped /\
   exists p, jwt_decode t = Some p /\
     payload_get p "aud" = Some (VStr teams_audience)).
Proof.
  cbv zeta. split; split.
  - intros H. destruct (loki_body_break r s _ H) as (Hu & t' & Ht & h & a & Hh & Hc & Hs).
    inversion Ht. subst t'. split; [exact Hu|].
    apply split_space_two in Hs. destruct Hs as (-> & Ha & Hn).
    exists a. auto.
  - intros (Hu & a & Hh & Ha & Hn & Hc). unfold loki_body.
    rewrite Hu, Hh, eqb_append_space, Hc. cbn [negb].
    rewrite (proj2 (split_space_two (a ++ " " ++ t) a t)) by auto.
    reflexivity.
  - intros H.
    destruct (teams_body_break jwt_decode r s _ H)
      as (t' & p & Ht & (h & a & Hh & Hc & Hs) & Hd & Hp).
    inversion Ht. subst t'.
    apply split_space_two in Hs. destruct Hs as (-> & Ha & Hn).
    split; [exists a; auto | exists p; auto].
  - intros ((a & Hh & Ha & Hn & Hc) & p & Hd & Hp). unfold teams_body.
    rewrite Hh, eqb_append_space, Hc. cbn [negb].
    rewrite (proj2 (split_space_two (a ++ " " ++ t) a t)) by auto.
    cbn [length Nat.eqb negb nth]. rewrite Hd, Hp. reflexivity.
Qed.

Lemma X17_match_conditions_witness :
  let r := Fixture.req "https://loki.delve.office.com" "Basic Bearer" in
  headers_get (headers r) "Authorization" = Some ("Basic" ++ " " ++ "Bearer") /\
  loki_body r None = Break (Some "Bearer").
Proof.
  intros r. split; [reflexivity|].
  apply (X17_match_conditions Fixture.jwt r None "Bearer").
  split; [reflexivity|]. exists "Basic". repeat split.
Defined.

(** ** A failure after the first scan *)

(** X18: a selenium exception while the profile is opened discards what
    the first scan captured: [fetch_new_tokens] returns [(None, None)] even
    when the scan had found the Teams token. *)
Theorem X18_profile_failure_discards_teams_token
    (jwt_decode : string -> option payload) (w : attempt)
    (st : scan_state (option string)) (e : exn) :
  credentials_entered w ->
  stay_signed_in_passes w ->
  snd (teams_scan jwt_decode (teams_requests w) None) = Returns st ->
  profile_raised w = Some e ->
  is_webdriver_exception e = true ->
  snd (fetch_new_tokens jwt_decode w) = Returns (None, None) /\
  Frame.quit_calls (fst (fetch_new_tokens jwt_decode w)) = 1%nat.
Proof.
  intros (H1 & H2 & H3 & H4 & H5 & H6 & H7 & H8 & H9 & H10 & H11) Hs Ht Hp He.
  assert (E : exists l, login jwt_decode w Frame.init = (l, Raises e) /\
                        Frame.driver l = true).
  { unfold login, bind at 1 2 3 4 5 6 7 8 9 10 11.
    rewrite H1, H2, H3, H4, H5, H6, H7, H8, H9, H10, H11.
    cbn [step new_driver]. unfold bind at 1.
    rewrite (stay_block_absorbed _ _ _ _ Hs).
    unfold bind at 1. unfold capture_teams_token.
    cbn [Frame.bind_driver Frame.init Frame.auth_token]. rewrite Ht.
    cbn [Frame.set_auth_token Frame.auth_token].
    unfold profile_raised, first_raised in Hp. unfold bind.
    destruct (negb (Py.truthy (token st)));
      (destruct (profile_button_wait w) as [x|];
       [inversion Hp; subst x; cbn; eexists; split; reflexivity|];
       destruct (profile_button_click w) as [x|];
       [inversion Hp; subst x; cbn; eexists; split; reflexivity|];
       destruct (view_button_wait w) as [x|];
       [inversion Hp; subst x; cbn; eexists; split; reflexivity|];
       rewrite Hp; cbn; eexists; split; reflexivity). }
  destruct E as (l & El & Hd).
  rewrite (fetch_after_webdriver_exception jwt_decode w l e El He Hd).
  destruct (login_raises_untouched jwt_decode w l e El) as [_ Hq].
  cbn. rewrite Hq. split; reflexivity.
Qed.

Lemma X18_profile_failure_discards_teams_token_witness :
  snd (teams_scan Fixture.jwt (teams_requests Sample.profile_timeout) None)
    = Returns {| token := Some "X"; found := true; last_checked_index := 1 |} /\
  profile_raised Sample.profile_timeout = Some TimeoutException /\
  snd (fetch_new_tokens Fixture.jwt Sample.profile_timeout)
    = Returns (None, None).
Proof.
  split; [reflexivity|]. split; [reflexivity|].
  assert (Hc : credentials_entered Sample.profile_timeout) by (repeat split).
  assert (Hs : stay_signed_in_passes Sample.profile_timeout)
    by (left; reflexivity).
  apply (X18_profile_failure_discards_teams_token Fixture.jwt
           Sample.profile_timeout
           {| token := Some "X"; found := true; last_checked_index := 1 |}
           TimeoutException Hc Hs); reflexivity.
Defined.

(** ** The threshold of the refresh *)

(** X19: with a stored Teams token that decodes and carries an integer
    [exp] that the platform converts, [check_tokens] logs in exactly when
    the local expiry date is at most five minutes after the local date read
    from the clock: at five minutes to the microsecond it does, one
    microsecond more and it does not.  Where the local zone has the same
    offset from UTC at both instants, that difference is the time the token
    has left. *)
Theorem X19_refresh_threshold (jwt_decode : string -> option payload)
    (local_datetime : Z -> option Z)
    (now : Z) (w : attempt) (self : Puppet) (t : string) (p : payload)
    (e d : Z) :
  teams_token self = Some t -> t <> EmptyString ->
  jwt_decode t = Some p ->
  payload_get p "exp" = Some (VInt e) ->
  local_datetime e = Some d ->
  refresh_needed jwt_decode local_datetime now self
  = Returns (d - now <=? minutes 5) /\
  (d - now <= minutes 5 ->
   fetch_calls (check_tokens jwt_decode local_datetime now w self) = 1%nat) /\
  (minutes 5 < d - now ->
   fetch_calls (check_tokens jwt_decode local_datetime now w self) = 0%nat) /\
  (forall utcoffset now_utc,
     d = seconds (e + utcoffset) -> now = now_utc + seconds utcoffset ->
     d - now = seconds e - now_utc).
Proof.
  intros Ht Hne Hd He Hl.
  assert (N : refresh_needed jwt_decode local_datetime now self
              = Returns (d - now <=? minutes 5)).
  { unfold refresh_needed.
    rewrite (time_til_expiration_decoded jwt_decode local_datetime now self
               t p e d Ht Hne Hd He Hl).
    rewrite Ht. unfold Py.truthy.
    apply String.eqb_neq in Hne. rewrite Hne. reflexivity. }
  split; [exact N|]. unfold check_tokens. rewrite N.
  split; [|split].
  - intros H. apply Z.leb_le in H. rewrite H. unfold refresh_tokens.
    destruct (snd (fetch_new_tokens jwt_decode w)); reflexivity.
  - intros H. apply Z.leb_gt in H. rewrite H. reflexivity.
  - intros utcoffset now_utc -> ->. unfold seconds. lia.
Qed.

Lemma X19_refresh_threshold_witness :
  let self := Fixture.puppet (Some "X") None in
  let at_five := seconds 1700003600 - minutes 5 in
  Fixture.utc 1700003600 = Some (seconds 1700003600) /\
  fetch_calls (check_tokens Fixture.jwt Fixture.utc at_five
                 Fixture.good_session self) = 1%nat /\
  fetch_calls (check_tokens Fixture.jwt Fixture.utc (at_five - 1)
                 Fixture.good_session self) = 0%nat.
Proof.
  intros self at_five.
  assert (Hne : "X" <> EmptyString) by discriminate.
  split; [reflexivity|]. split.
  - apply (proj1 (proj2 (X19_refresh_threshold Fixture.jwt Fixture.utc at_five
             Fixture.good_session self "X"
             [("aud", VStr teams_audience); ("exp", VInt 1700003600)]
             1700003600 (seconds 1700003600)
             eq_refl Hne eq_refl eq_refl eq_refl))).
    unfold at_five, seconds, minutes. lia.
  - apply (proj1 (proj2 (proj2 (X19_refresh_threshold Fixture.jwt Fixture.utc
             (at_five - 1)
             Fixture.good_session self "X"
             [("aud", VStr teams_audience); ("exp", VInt 1700003600)]
             1700003600 (seconds 1700003600)
             eq_refl Hne eq_refl eq_refl eq_refl)))).
    unfold at_five, seconds, minutes. lia.
Defined.
